(** * ifc2neo4j: the IFC-to-property-graph transformation of [ifc-graph.py]

    A shallow embedding of the classes [Node], [Relationship] and [Graph] and
    of the functions [create_pure_node_from_ifc_entity],
    [create_graph_from_ifc_entity_all], [create_full_graph] and
    [write_graph_to_neo4j], followed by the properties of the design document
    that concern them.

    Conventions.
    - Python objects handed over by the IFC source are values of [value]:
      [None], booleans, integers, floating-point numbers, strings, tuples
      and entity instances. A floating-point number is kept as the 64 bits
      of its binary64 form; the program never computes with one. An entity
      instance is a value of [entity] carrying what the program reads of
      it: [id()], [is_a()], [is_a(label)], its arguments (name, declared
      kind, value) and its inverse attributes.
    - A Python [dict] is an association list in insertion order; assigning to
      an existing key keeps the key's position, as [dict] does.
    - A Python [set] of objects with user-defined [__hash__] and [__eq__] is a
      duplicate-free list in insertion order: [set.add] leaves the set as it
      is when an element with the same hash that compares equal is present.
      The iteration order of a real [set] is unspecified; nothing below
      depends on it.
    - A function that mutates the graph or may raise is a function from the
      state before to an outcome and the state after.
    - The sink is the list of statements it has executed; the driver, an
      argument of the emitter as in the source, decides for each statement
      whether it is executed or an exception is raised.
    - [uuid4()] draws from the operating system's entropy; the run's draws
      are a sequence [uuid4 : nat -> string] and the number of draws made so
      far is threaded as state.
    - [hash] on [int] is CPython's (64-bit build). What the interpreter or
      the source library decides per process or per object (the seeded hash
      of [str], the hash of tuples, the truth value of an entity instance)
      is a parameter, gathered in [runtime]. *)

From Stdlib Require Import ZArith Lia.
From stdpp Require Import base strings list gmap pretty.

Local Open Scope string_scope.
Local Open Scope Z_scope.

(** ** Values and entities supplied by the IFC source *)

#[local] Unset Elimination Schemes.

Inductive value : Type :=
| VNone
| VBool (b : bool)
| VInt (z : Z)
| VFloat (bits : Z)
| VStr (s : string)
| VTuple (l : list value)
| VEntity (e : entity)
with entity : Type :=
| Entity (native_id : Z) (type_tag : string) (is_a_label : string -> bool)
         (arguments : list argument) (inverses : list (string * list Z))
with argument : Type :=
| Argument (name : string) (kind : string) (v : value).

#[local] Set Elimination Schemes.

(** [ifc_entity.id()] *)
Definition e_id (e : entity) : Z :=
  match e with Entity i _ _ _ _ => i end.

(** [ifc_entity.is_a()] *)
Definition is_a (e : entity) : string :=
  match e with Entity _ t _ _ _ => t end.

(** [ifc_entity.is_a(label)] *)
Definition is_a_of (e : entity) (label : string) : bool :=
  match e with Entity _ _ p _ _ => p label end.

Definition e_args (e : entity) : list argument :=
  match e with Entity _ _ _ a _ => a end.

(** [ifc_entity.__len__()] *)
Definition e_len (e : entity) : nat := length (e_args e).

(** [get_inverse_attribute_names()] paired with the identifiers of the
    instances that [get_inverse(rel_name)] returns for each name. *)
Definition e_inverses (e : entity) : list (string * list Z) :=
  match e with Entity _ _ _ _ i => i end.

(** [get_argument_name(i)], [get_argument_type(i)] and [get_argument(i)]
    (which is also [ifc_entity[i]]). *)
Definition arg_name (a : argument) : string :=
  match a with Argument n _ _ => n end.
Definition arg_type (a : argument) : string :=
  match a with Argument _ k _ => k end.
Definition arg_value (a : argument) : value :=
  match a with Argument _ _ v => v end.

(** The opened file: [wrapped_data.types_with_super()],
    [wrapped_data.entity_names()] and [by_id], which raises for an
    identifier the file does not hold. *)
Record ifc_file : Type := {
  types_with_super : list string;
  entity_names : list Z;
  by_id : Z -> option entity
}.

(** ** Exceptions and results *)

Inductive exn : Type :=
| TypeError (msg : string)
| AttributeError
| KeyError (key : string)
| RuntimeError
| DriverError (msg : string).

Inductive res (A : Type) : Type :=
| Ok (a : A)
| Raise (e : exn).
Arguments Ok {A} a.
Arguments Raise {A} e.

(** ** Python [dict] in insertion order *)

Fixpoint dict_get (k : string) (d : list (string * value)) : option value :=
  match d with
  | [] => None
  | (k', v) :: d' => if String.eqb k' k then Some v else dict_get k d'
  end.

Fixpoint dict_set (k : string) (v : value) (d : list (string * value))
  : list (string * value) :=
  match d with
  | [] => [(k, v)]
  | (k', v') :: d' =>
      if String.eqb k' k then (k', v) :: d' else (k', v') :: dict_set k v d'
  end.

(** ** class Node(dict) *)

Record Node : Type := {
  items : list (string * value);
  labels : gset string;
  primarylabel : value;
  primarykey : value
}.

(** [Node()]: an empty dict, no label, both class attributes [None]. *)
Definition Node_new : Node :=
  {| items := []; labels := ∅; primarylabel := VNone; primarykey := VNone |}.

(** [node[k] = v] *)
Definition Node_setitem (k : string) (v : value) (n : Node) : Node :=
  {| items := dict_set k v (items n); labels := labels n;
     primarylabel := primarylabel n; primarykey := primarykey n |}.

Definition add_label (label : string) (n : Node) : Node :=
  {| items := items n; labels := {[ label ]} ∪ labels n;
     primarylabel := primarylabel n; primarykey := primarykey n |}.

Definition set_primarylabel (v : value) (n : Node) : Node :=
  {| items := items n; labels := labels n;
     primarylabel := v; primarykey := primarykey n |}.

Definition set_primarykey (v : value) (n : Node) : Node :=
  {| items := items n; labels := labels n;
     primarylabel := primarylabel n; primarykey := v |}.

(** ** Hashing *)

(** CPython's hash of an [int]: the absolute value reduced modulo the
    Mersenne prime [2^61 - 1], with the sign restored, and [-1] (the error
    code of the C interface) replaced by [-2]. *)
Definition long_hash (z : Z) : Z :=
  let x := Z.sgn z * (Z.abs z mod (2 ^ 61 - 1)) in
  if x =? -1 then -2 else x.

(** What the interpreter and the source library fix, per process or per
    object: the seeded hash of strings, the hash of a tuple as a function of
    the hashes of its components, the hash of the remaining objects, the
    truth value of an entity instance, and [str] of floating-point numbers,
    tuples and entity instances. *)
Record runtime : Type := {
  str_hash : string -> Z;
  tuple_hash : list Z -> Z;
  other_hash : value -> Z;
  entity_truth : entity -> bool;
  other_str : value -> string
}.

Section Program.

Variable rt : runtime.

(** The UUID strings that [str(uuid4())] yields in this run, in the order
    they are drawn. *)
Variable uuid4 : nat -> string.

(** Python truth value: [None], [False], [0], a floating-point zero of
    either sign, the empty string and the empty tuple are false; for an
    entity instance the source library decides. *)
Definition truthy (v : value) : bool :=
  match v with
  | VNone => false
  | VBool b => b
  | VInt z => negb (z =? 0)
  | VFloat bits => negb (Z.land bits (2 ^ 63 - 1) =? 0)
  | VStr s => negb (String.eqb s "")
  | VTuple l => match l with [] => false | _ => true end
  | VEntity e => entity_truth rt e
  end.

(** The built-in [hash] on the values a primary key can hold; [True] and
    [False] hash as [1] and [0]. *)
Definition py_hash (v : value) : Z :=
  match v with
  | VBool b => if b then 1 else 0
  | VInt z => long_hash z
  | VStr s => str_hash rt s
  | _ => other_hash rt v
  end.

(** [Node.__hash__] *)
Definition Node_hash (n : Node) : Z := py_hash (primarykey n).

(** [Node.__eq__] against another [Node]. *)
Definition Node_eq (n o : Node) : bool := Node_hash n =? Node_hash o.

(** ** class Relationship *)

Record Relationship : Type := {
  start_node : Node;
  rel_type : string;
  end_node : Node
}.

(** [Relationship.__hash__]: the hash of the triple, a function of the
    hashes of its three components. *)
Definition Relationship_hash (r : Relationship) : Z :=
  tuple_hash rt
    [Node_hash (start_node r); str_hash rt (rel_type r); Node_hash (end_node r)].

Definition Relationship_eq (r o : Relationship) : bool :=
  Relationship_hash r =? Relationship_hash o.

(** ** Python [set] *)

(** [s.add(x)]: an entry with the same hash that compares equal to [x]
    keeps [x] out. *)
Definition set_add {A : Type} (hash : A -> Z) (eq : A -> A -> bool)
    (x : A) (s : list A) : list A :=
  if existsb (fun y => (hash y =? hash x) && eq y x) s then s else s ++ [x].

(** ** class Graph *)

Record Graph : Type := {
  nodes : list Node;
  relationships : list Relationship
}.

(** [Graph()] *)
Definition Graph_new : Graph := {| nodes := []; relationships := [] |}.

(** What a caller can pass to [merge]. *)
Inductive pyobj : Type :=
| ONode (n : Node)
| ORel (r : Relationship)
| OValue (v : value).

(** [Graph.merge]: the outcome and the graph after the call. *)
Definition merge (g : Graph) (entity : pyobj) : res unit * Graph :=
  match entity with
  | ONode n =>
      (Ok tt, {| nodes := set_add Node_hash Node_eq n (nodes g);
                 relationships := relationships g |})
  | ORel r =>
      (Ok tt, {| nodes := nodes g;
                 relationships :=
                   set_add Relationship_hash Relationship_eq r (relationships g) |})
  | OValue _ => (Raise (TypeError "Can only merge nodes and relationships"), g)
  end.

(** ** create_pure_node_from_ifc_entity *)

Definition attributes_type : list string :=
  ["ENTITY INSTANCE"; "AGGREGATE OF ENTITY INSTANCE"; "DERIVED"].

Definition in_strings (s : string) (l : list string) : bool :=
  existsb (String.eqb s) l.

(** The loop over [types_with_super()]. *)
Fixpoint add_hierarchy_labels (e : entity) (ls : list string) (n : Node) : Node :=
  match ls with
  | [] => n
  | label :: ls' =>
      add_hierarchy_labels e ls'
        (if is_a_of e label then add_label label n else n)
  end.

(** The loop over the argument indices. *)
Fixpoint store_attributes (args : list argument) (n : Node) : Node :=
  match args with
  | [] => n
  | a :: args' =>
      store_attributes args'
        (if negb (in_strings (arg_type a) attributes_type)
         then Node_setitem (arg_name a) (arg_value a) n
         else n)
  end.

(** [node[k]]; a missing key raises [KeyError]. *)
Definition Node_getitem (k : string) (n : Node) : res value :=
  match dict_get k (items n) with
  | Some v => Ok v
  | None => Raise (KeyError k)
  end.

(** The builder proper. [drawn] is the number of UUIDs drawn before the
    call; the result carries the number drawn after it. *)
Definition create_pure_node_from_ifc_entity
    (ifc_entity : entity) (file : ifc_file) (hierarchy : bool) (drawn : nat)
  : Node * nat :=
  let node := Node_new in
  let '(node, drawn) :=
    if negb (e_id ifc_entity =? 0)
    then (Node_setitem "id" (VStr (pretty (e_id ifc_entity))) node, drawn)
    else (Node_setitem "id" (VStr (uuid4 drawn)) node, S drawn) in
  let node := Node_setitem "name" (VStr (is_a ifc_entity)) node in
  let node :=
    if hierarchy
    then add_hierarchy_labels ifc_entity (types_with_super file) node
    else add_label (is_a ifc_entity) node in
  let node := store_attributes (e_args ifc_entity) node in
  (* both keys were assigned above, so neither lookup can raise *)
  let node :=
    set_primarylabel (default VNone (dict_get "name" (items node))) node in
  let node :=
    set_primarykey (default VNone (dict_get "id" (items node))) node in
  (node, drawn).

(** ** State and exceptions

    A computation reads and updates a state [S] and either returns or
    raises; what was done to the state before an exception stays done. *)

Definition M (S A : Type) : Type := S -> res A * S.

Definition ret {S A : Type} (a : A) : M S A := fun s => (Ok a, s).

Definition raise {S A : Type} (e : exn) : M S A := fun s => (Raise e, s).

Definition bind {S A B : Type} (c : M S A) (k : A -> M S B) : M S B :=
  fun s =>
    match c s with
    | (Ok a, s') => k a s'
    | (Raise e, s') => (Raise e, s')
    end.

Notation "'let*' x ':=' c 'in' k" := (bind c (fun x => k))
  (at level 10, x pattern, c at level 100, k at level 200).

(** A [for] loop whose body may raise. *)
Fixpoint for_each {S A : Type} (l : list A) (body : A -> M S unit) : M S unit :=
  match l with
  | [] => ret tt
  | x :: l' => let* _ := body x in for_each l' body
  end.

(** ** create_graph_from_ifc_entity_all *)

(** The graph object the extractor mutates, and the UUIDs drawn so far. *)
Record state : Type := { graph : Graph; drawn : nat }.

(** A call of the builder with [hierarchy] left at its default. *)
Definition build (ifc_entity : entity) (file : ifc_file) : M state Node :=
  fun s =>
    let '(node, d) :=
      create_pure_node_from_ifc_entity ifc_entity file true (drawn s) in
    (Ok node, {| graph := graph s; drawn := d |}).

(** [graph.merge(x)] *)
Definition graph_merge (x : pyobj) : M state unit :=
  fun s =>
    let '(r, g) := merge (graph s) x in
    (r, {| graph := g; drawn := drawn s |}).

(** Method calls on a value succeed on entity instances only. *)
Definition as_entity {S : Type} (v : value) : M S entity :=
  match v with
  | VEntity e => ret e
  | _ => raise AttributeError
  end.

(** Iterating a value: the source hands over aggregates as tuples. *)
Definition iterate {S : Type} (v : value) : M S (list value) :=
  match v with
  | VTuple l => ret l
  | _ => raise (TypeError "object is not iterable")
  end.

(** [ifc_file.by_id(i)] *)
Definition file_by_id {S : Type} (file : ifc_file) (i : Z) : M S entity :=
  match by_id file i with
  | Some e => ret e
  | None => raise RuntimeError
  end.

(** The body of the loop over the argument indices. *)
Definition forward_attribute (node : Node) (ifc_entity : entity)
    (file : ifc_file) (a : argument) : M state unit :=
  if truthy (arg_value a) then
    if String.eqb (arg_type a) "ENTITY INSTANCE" then
      let* referenced := as_entity (arg_value a) in
      if in_strings (is_a referenced) ["IfcOwnerHistory"]
         && negb (String.eqb (is_a ifc_entity) "IfcProject")
      then ret tt
      else
        let* sub_node := build referenced file in
        graph_merge (ORel {| start_node := node; rel_type := arg_name a;
                             end_node := sub_node |})
    else if String.eqb (arg_type a) "AGGREGATE OF ENTITY INSTANCE" then
      let* elements := iterate (arg_value a) in
      for_each elements (fun v =>
        let* sub_entity := as_entity v in
        let* sub_node := build sub_entity file in
        graph_merge (ORel {| start_node := node; rel_type := arg_name a;
                             end_node := sub_node |}))
    else ret tt
  else ret tt.

(** The body of the loop over the inverse attribute names. *)
Definition inverse_attribute (node : Node) (file : ifc_file)
    (inv : string * list Z) : M state unit :=
  let '(rel_name, inverse_relations) := inv in
  match inverse_relations with
  | [] => ret tt
  | _ =>
      for_each inverse_relations (fun wrapped_id =>
        let* rel_entity := file_by_id file wrapped_id in
        let* sub_node := build rel_entity file in
        graph_merge (ORel {| start_node := node; rel_type := rel_name;
                             end_node := sub_node |}))
  end.

Definition create_graph_from_ifc_entity_all (ifc_entity : entity)
    (file : ifc_file) : M state unit :=
  let* node := build ifc_entity file in
  let* _ := graph_merge (ONode node) in
  let* _ := for_each (e_args ifc_entity)
              (forward_attribute node ifc_entity file) in
  for_each (e_inverses ifc_entity) (inverse_attribute node file).

(** ** create_full_graph

    The progress line printed per entity goes to standard output and is
    left out. *)

Definition create_full_graph (file : ifc_file) : M state unit :=
  for_each (entity_names file) (fun entity_id =>
    let* entity := file_by_id file entity_id in
    create_graph_from_ifc_entity_all entity file).

(** ** write_graph_to_neo4j *)

(** A statement handed to [driver.execute_query], kept as the values that
    fill the holes of its template:
    [CREATE (n: {node['name']} {node})] and
    [MATCH (parent: {start['name']} {id: "{start['id']}"}),
           (child:{end['name']} {id: "{end['id']}"})
     CREATE (parent)-[:{rel_type}]->(child)]. *)
Inductive query : Type :=
| CreateNode (label : value) (node : Node)
| MatchCreate (parent_label parent_id child_label child_id : value)
              (rel : string).

(** The sink: the statements it has executed, each with its database. *)
Definition sink : Type := list (query * string).

(** A driver, as the emitter meets it: shown the statements the sink has
    executed and a new one, it has the new one executed ([None]) or raises
    ([Some msg]). *)
Definition Driver : Type := sink -> query * string -> option string.

(** [driver.execute_query(query, database=database)]: a statement that the
    driver raises on is not executed. *)
Definition execute_query (driver : Driver) (q : query) (database : string)
  : M sink unit :=
  fun log =>
    match driver log (q, database) with
    | None => (Ok tt, (log ++ [(q, database)])%list)
    | Some msg => (Raise (DriverError msg), log)
    end.

(** [node[k]] inside a computation. *)
Definition getitem {S : Type} (k : string) (n : Node) : M S value :=
  fun s => (Node_getitem k n, s).

(** The body of the loop over [graph.nodes]. *)
Definition emit_node (driver : Driver) (database : string) (node : Node)
  : M sink unit :=
  let* name := getitem "name" node in
  execute_query driver (CreateNode name node) database.

(** The body of the loop over [graph.relationships]; the statement is also
    printed, which is left out. *)
Definition emit_relationship (driver : Driver) (database : string)
    (rel : Relationship) : M sink unit :=
  let start_node := start_node rel in
  let end_node := end_node rel in
  let* parent_label := getitem "name" start_node in
  let* parent_id := getitem "id" start_node in
  let* child_label := getitem "name" end_node in
  let* child_id := getitem "id" end_node in
  execute_query driver
    (MatchCreate parent_label parent_id child_label child_id (rel_type rel))
    database.

Definition write_graph_to_neo4j (g : Graph) (driver : Driver)
    (database : string) : M sink unit :=
  let* _ := for_each (nodes g) (emit_node driver database) in
  for_each (relationships g) (emit_relationship driver database).

(** ** The text of a statement

    The driver receives each statement as the string the template yields;
    the log above keeps the values that fill it. *)

Definition dquote : string := String (Ascii.ascii_of_nat 34) EmptyString.

Definition newline : string := String (Ascii.ascii_of_nat 10) EmptyString.

(** [str(v)], which is what an f-string puts in place of [{v}]. *)
Definition py_str (v : value) : string :=
  match v with
  | VNone => "None"
  | VBool b => if b then "True" else "False"
  | VInt z => pretty z
  | VStr s => s
  | _ => other_str rt v
  end.

(** [isinstance(v, (int, float))]; a [bool] is an [int]. *)
Definition is_number (v : value) : bool :=
  match v with
  | VBool _ | VInt _ | VFloat _ => true
  | _ => false
  end.

(** The loop of [Node.__str__] over [self.items()]. *)
Fixpoint items_str (d : list (string * value)) : string :=
  match d with
  | [] => EmptyString
  | (key, v) :: d' =>
      (if is_number v
       then key +:+ ": " +:+ py_str v +:+ ", "
       else key +:+ ": " +:+ dquote +:+ py_str v +:+ dquote +:+ ", ")
      +:+ items_str d'
  end.

(** [Node.__str__] *)
Definition Node_str (n : Node) : string :=
  match items n with
  | [] => "{}"
  | _ =>
      let res := "{" +:+ items_str (items n) in
      String.substring 0 (String.length res - 2) res +:+ "}"
  end.

Definition query_text (q : query) : string :=
  match q with
  | CreateNode label node =>
      "CREATE (n: " +:+ py_str label +:+ " " +:+ Node_str node +:+ ")"
  | MatchCreate parent_label parent_id child_label child_id rel =>
      "MATCH (parent: " +:+ py_str parent_label
      +:+ " {id: " +:+ dquote +:+ py_str parent_id +:+ dquote +:+ "}),"
      +:+ newline
      +:+ "         (child:" +:+ py_str child_label
      +:+ " {id: " +:+ dquote +:+ py_str child_id +:+ dquote +:+ "})"
      +:+ newline
      +:+ "                    CREATE (parent)-[:" +:+ rel +:+ "]->(child)"
  end.

End Program.

(** [n in s] for a set of nodes. *)
Definition set_contains (rt : runtime) (n : Node) (s : list Node) : bool :=
  existsb (fun y => (Node_hash rt y =? Node_hash rt n) && Node_eq rt y n) s.

(** ** A concrete interpreter and concrete models

    The properties below hold for every hash environment and every sequence
    of UUIDs. To run the program, one of each is fixed here, together with
    the small models the design document describes. *)

Definition sample_str_hash (s : string) : Z :=
  fold_left (fun h c => (h * 31 + Z.of_nat (Ascii.nat_of_ascii c)) mod 2 ^ 61)
    (String.list_ascii_of_string s) 7.

Definition sample_runtime : runtime :=
  {| str_hash := sample_str_hash;
     tuple_hash :=
       fun l => fold_left (fun acc x => (acc * 1000003 + x) mod 2 ^ 61) l 3430008;
     other_hash := fun _ => 0;
     entity_truth := fun e => negb (Nat.eqb (e_len e) 0);
     other_str := fun _ => "..." |}.

Definition sample_uuid4 (k : nat) : string :=
  "00000000-0000-4000-8000-" +:+ pretty k.

(** [is_a(label)] from the list of an entity's own type and its ancestors. *)
Definition isa_in (l : list string) (label : string) : bool :=
  existsb (String.eqb label) l.

Definition empty_state : state := {| graph := Graph_new; drawn := 0 |}.

(** A wall (#5) that refers to an owner history (#9) and to a placement
    (#7). *)
Definition owner9 : entity :=
  Entity 9 "IfcOwnerHistory" (isa_in ["IfcOwnerHistory"])
    [Argument "State" "ENUMERATION" (VStr "READWRITE");
     Argument "CreationDate" "INT" (VInt 1700000000)] [].

Definition placement7 : entity :=
  Entity 7 "IfcLocalPlacement" (isa_in ["IfcLocalPlacement"; "IfcObjectPlacement"])
    [Argument "PlacementRelTo" "ENTITY INSTANCE" VNone] [].

Definition wall5 : entity :=
  Entity 5 "IfcWall" (isa_in ["IfcWall"; "IfcBuildingElement"; "IfcProduct"])
    [Argument "GlobalId" "STRING" (VStr "2O2Fr$t4X7Zf8NOew3FLOH");
     Argument "OwnerHistory" "ENTITY INSTANCE" (VEntity owner9);
     Argument "Name" "STRING" VNone;
     Argument "ObjectPlacement" "ENTITY INSTANCE" (VEntity placement7)] [].

(** A project (#1) that refers to an owner history (#2). *)
Definition owner2 : entity :=
  Entity 2 "IfcOwnerHistory" (isa_in ["IfcOwnerHistory"])
    [Argument "State" "ENUMERATION" (VStr "READWRITE")] [].

Definition project1 : entity :=
  Entity 1 "IfcProject" (isa_in ["IfcProject"; "IfcObject"; "IfcRoot"])
    [Argument "GlobalId" "STRING" (VStr "0YvctVUKr0kugbFTf53O9L");
     Argument "OwnerHistory" "ENTITY INSTANCE" (VEntity owner2)] [].

(** A property (#10) whose nominal value is a typed value written inline:
    an entity instance without a file identifier. *)
Definition label0 : entity :=
  Entity 0 "IfcLabel" (isa_in ["IfcLabel"])
    [Argument "wrappedValue" "STRING" (VStr "Concrete")] [].

Definition property10 : entity :=
  Entity 10 "IfcPropertySingleValue"
    (isa_in ["IfcPropertySingleValue"; "IfcSimpleProperty"; "IfcProperty"])
    [Argument "Name" "STRING" (VStr "Material");
     Argument "NominalValue" "ENTITY INSTANCE" (VEntity label0)] [].

Definition building_file : ifc_file :=
  {| types_with_super :=
       ["IfcWall"; "IfcBuildingElement"; "IfcProduct"; "IfcOwnerHistory";
        "IfcProject"; "IfcObject"; "IfcRoot"; "IfcLocalPlacement";
        "IfcObjectPlacement"];
     entity_names := [1; 2; 5; 7; 9];
     by_id := fun i =>
       if i =? 1 then Some project1 else
       if i =? 2 then Some owner2 else
       if i =? 5 then Some wall5 else
       if i =? 7 then Some placement7 else
       if i =? 9 then Some owner9 else None |}.

Definition property_file : ifc_file :=
  {| types_with_super :=
       ["IfcPropertySingleValue"; "IfcSimpleProperty"; "IfcProperty"; "IfcLabel"];
     entity_names := [10];
     by_id := fun i => if i =? 10 then Some property10 else None |}.

(** Two records of a schema that declares a stored integer attribute named
    [id], and one that declares string attributes named [id] and [name]. *)
Definition record_a : entity :=
  Entity 21 "Record" (isa_in ["Record"]) [Argument "id" "INT" (VInt (-1))] [].

Definition record_b : entity :=
  Entity 22 "Record" (isa_in ["Record"]) [Argument "id" "INT" (VInt (-2))] [].

Definition tagged0 : entity :=
  Entity 0 "Tagged" (isa_in ["Tagged"])
    [Argument "id" "STRING" (VStr "T-1"); Argument "name" "STRING" (VStr "Door")] [].

Definition record_file : ifc_file :=
  {| types_with_super := ["Record"; "Tagged"];
     entity_names := [21; 22];
     by_id := fun i =>
       if i =? 21 then Some record_a else
       if i =? 22 then Some record_b else None |}.

(** * Properties *)

Section Properties.

Variable rt : runtime.
Variable uuid4 : nat -> string.

(** ** Sets *)

Lemma set_add_present {A : Type} (hash : A -> Z) (eq : A -> A -> bool)
    (x y : A) (s : list A) :
  In y s -> hash y = hash x -> eq y x = true -> set_add hash eq x s = s.
Proof.
  intros Hin Hh He. unfold set_add.
  assert (existsb (fun y => (hash y =? hash x) && eq y x) s = true) as ->.
  { apply existsb_exists. exists y. split; [exact Hin|].
    rewrite Hh, Z.eqb_refl, He. reflexivity. }
  reflexivity.
Qed.

Lemma set_add_incl {A : Type} (hash : A -> Z) (eq : A -> A -> bool)
    (x y : A) (s : list A) :
  In y s -> In y (set_add hash eq x s).
Proof.
  intros Hin. unfold set_add.
  destruct (existsb _ s); [exact Hin|]. apply in_or_app. left. exact Hin.
Qed.

Lemma set_add_holds {A : Type} (hash : A -> Z) (eq : A -> A -> bool)
    (x : A) (s : list A) :
  (forall a, eq a a = true) ->
  exists y, In y (set_add hash eq x s) /\ hash y = hash x /\ eq y x = true.
Proof.
  intros Hrefl. unfold set_add.
  destruct (existsb _ s) eqn:E.
  - apply existsb_exists in E as (y & Hin & Hy).
    apply andb_prop in Hy as [Hh He]. apply Z.eqb_eq in Hh. eauto.
  - exists x. split; [|split]; auto. apply in_or_app. right. left. reflexivity.
Qed.

Lemma set_add_length {A : Type} (hash : A -> Z) (eq : A -> A -> bool)
    (x : A) (s : list A) :
  (length (set_add hash eq x s) <= S (length s))%nat.
Proof.
  unfold set_add. destruct (existsb _ s); [lia|].
  rewrite length_app. simpl. lia.
Qed.

Lemma Node_eq_refl (n : Node) : Node_eq rt n n = true.
Proof. unfold Node_eq. apply Z.eqb_refl. Qed.

Lemma Relationship_eq_refl (r : Relationship) : Relationship_eq rt r r = true.
Proof. unfold Relationship_eq. apply Z.eqb_refl. Qed.

Lemma Relationship_hash_triple (r o : Relationship) :
  primarykey (start_node r) = primarykey (start_node o) ->
  rel_type r = rel_type o ->
  primarykey (end_node r) = primarykey (end_node o) ->
  Relationship_hash rt r = Relationship_hash rt o.
Proof.
  intros Hs Ht He. unfold Relationship_hash, Node_hash.
  rewrite Hs, Ht, He. reflexivity.
Qed.

(** ** Graph.merge *)

(** C9. [merge] raises a type error for every input that is neither a node
    nor a relationship and leaves both sets of the graph as they were; for a
    node and for a relationship it returns normally. *)
Theorem merge_type_dispatch (g : Graph) :
  (forall v, exists msg, merge rt g (OValue v) = (Raise (TypeError msg), g)) /\
  (forall n, exists g', merge rt g (ONode n) = (Ok tt, g')) /\
  (forall r, exists g', merge rt g (ORel r) = (Ok tt, g')).
Proof.
  split; [|split].
  - intros v. eexists. reflexivity.
  - intros n. eexists. reflexivity.
  - intros r. eexists. reflexivity.
Qed.

(** C7. Merging a node whose identity is that of a node already in the graph
    leaves the graph as it is, whatever the labels and properties of the new
    node; merging a relationship whose triple (source identity, type name,
    target identity) is that of a relationship already in the graph leaves
    the graph as it is. *)
Theorem merge_idempotent (g : Graph) :
  (forall n n',
      In n' (nodes g) -> primarykey n' = primarykey n ->
      merge rt g (ONode n) = (Ok tt, g)) /\
  (forall r r',
      In r' (relationships g) ->
      primarykey (start_node r') = primarykey (start_node r) ->
      rel_type r' = rel_type r ->
      primarykey (end_node r') = primarykey (end_node r) ->
      merge rt g (ORel r) = (Ok tt, g)).
Proof.
  split.
  - intros n n' Hin Hpk. unfold merge.
    rewrite (set_add_present (Node_hash rt) (Node_eq rt) n n').
    + destruct g; reflexivity.
    + exact Hin.
    + unfold Node_hash. rewrite Hpk. reflexivity.
    + unfold Node_eq, Node_hash. rewrite Hpk. apply Z.eqb_refl.
  - intros r r' Hin Hs Ht He. unfold merge.
    pose proof (Relationship_hash_triple r' r Hs Ht He) as Hh.
    rewrite (set_add_present (Relationship_hash rt) (Relationship_eq rt) r r').
    + destruct g; reflexivity.
    + exact Hin.
    + exact Hh.
    + unfold Relationship_eq. rewrite Hh. apply Z.eqb_refl.
Qed.

(** ** Node.__eq__ and Node.__hash__ *)

(** C4, as the program has it. Two nodes are equal exactly when the hashes
    of their primary keys are equal; nodes with the same identity are equal
    and hash identically, whatever their labels and properties; equal nodes
    have the same identity when the hash does not collide on the two
    identities. *)
Theorem Node_eq_by_hash (a b : Node) :
  (Node_eq rt a b = true <-> Node_hash rt a = Node_hash rt b) /\
  (primarykey a = primarykey b ->
   Node_eq rt a b = true /\ Node_hash rt a = Node_hash rt b) /\
  ((py_hash rt (primarykey a) = py_hash rt (primarykey b) ->
    primarykey a = primarykey b) ->
   Node_eq rt a b = true -> primarykey a = primarykey b).
Proof.
  split; [|split].
  - unfold Node_eq. apply Z.eqb_eq.
  - intros Hpk. unfold Node_eq, Node_hash. rewrite Hpk.
    split; [apply Z.eqb_refl | reflexivity].
  - intros Hinj Heq. apply Hinj. unfold Node_eq, Node_hash in Heq.
    apply Z.eqb_eq. exact Heq.
Qed.

(** ** The builder *)

(** The value that the loop over the arguments leaves under key [k]: that of
    the last argument named [k] whose kind is stored, if there is one. *)
Fixpoint last_stored (k : string) (args : list argument) : option value :=
  match args with
  | [] => None
  | a :: args' =>
      match last_stored k args' with
      | Some v => Some v
      | None =>
          if negb (in_strings (arg_type a) attributes_type)
             && String.eqb (arg_name a) k
          then Some (arg_value a)
          else None
      end
  end.

Lemma dict_get_set_same (k : string) (v : value) (d : list (string * value)) :
  dict_get k (dict_set k v d) = Some v.
Proof.
  induction d as [|[k' v'] d IH]; simpl.
  - rewrite String.eqb_refl. reflexivity.
  - destruct (String.eqb k' k) eqn:E; simpl; rewrite E; [reflexivity | exact IH].
Qed.

Lemma dict_get_set_other (k k' : string) (v : value) (d : list (string * value)) :
  k' <> k -> dict_get k (dict_set k' v d) = dict_get k d.
Proof.
  intros Hne. induction d as [|[k0 v0] d IH]; simpl.
  - apply String.eqb_neq in Hne. rewrite Hne. reflexivity.
  - destruct (String.eqb k0 k') eqn:E; simpl.
    + apply String.eqb_eq in E. subst k0.
      apply String.eqb_neq in Hne. rewrite Hne. reflexivity.
    + destruct (String.eqb k0 k); [reflexivity | exact IH].
Qed.

Lemma labels_store_attributes (args : list argument) (n : Node) :
  labels (store_attributes args n) = labels n.
Proof.
  revert n. induction args as [|a args IH]; intros n; simpl; [reflexivity|].
  rewrite IH. destruct (negb _); reflexivity.
Qed.

Lemma items_add_hierarchy_labels (e : entity) (ls : list string) (n : Node) :
  items (add_hierarchy_labels e ls n) = items n.
Proof.
  revert n. induction ls as [|l ls IH]; intros n; simpl; [reflexivity|].
  rewrite IH. destruct (is_a_of e l); reflexivity.
Qed.

Lemma labels_add_hierarchy_labels (e : entity) (ls : list string) (n : Node)
    (T : string) :
  T ∈ labels (add_hierarchy_labels e ls n) <->
  T ∈ labels n \/ (In T ls /\ is_a_of e T = true).
Proof.
  revert n. induction ls as [|l ls IH]; intros n; simpl.
  - intuition.
  - rewrite IH. destruct (is_a_of e l) eqn:E; simpl.
    + rewrite elem_of_union, elem_of_singleton. split.
      * intros [[->|Hn]|[Hin Ht]]; auto.
      * intros [Hn|[[->|Hin] Ht]]; auto.
    + split.
      * intros [Hn|[Hin Ht]]; auto.
      * intros [Hn|[[->|Hin] Ht]]; auto. congruence.
Qed.

Lemma store_attributes_get (k : string) (args : list argument) (n : Node) :
  dict_get k (items (store_attributes args n)) =
  match last_stored k args with
  | Some v => Some v
  | None => dict_get k (items n)
  end.
Proof.
  revert n. induction args as [|a args IH]; intros n;
    cbn [store_attributes last_stored]; [reflexivity|].
  rewrite IH. destruct (last_stored k args); [reflexivity|].
  destruct (negb (in_strings (arg_type a) attributes_type)); cbn [andb];
    [|reflexivity].
  unfold Node_setitem; cbn [items].
  destruct (String.eqb (arg_name a) k) eqn:E.
  - apply String.eqb_eq in E. subst k. apply dict_get_set_same.
  - apply String.eqb_neq in E. apply dict_get_set_other. exact E.
Qed.

(** The identity a call of the builder draws or derives before it looks at
    the arguments. *)
Definition initial_id (e : entity) (k : nat) : string :=
  if e_id e =? 0 then uuid4 k else pretty (e_id e).

Lemma builder_drawn (e : entity) (f : ifc_file) (h : bool) (k : nat) :
  snd (create_pure_node_from_ifc_entity uuid4 e f h k) =
  if e_id e =? 0 then S k else k.
Proof.
  unfold create_pure_node_from_ifc_entity.
  destruct (e_id e =? 0); reflexivity.
Qed.

Lemma builder_labels (e : entity) (f : ifc_file) (h : bool) (k : nat) :
  labels (fst (create_pure_node_from_ifc_entity uuid4 e f h k)) =
  if h then labels (add_hierarchy_labels e (types_with_super f) Node_new)
  else {[ is_a e ]}.
Proof.
  unfold create_pure_node_from_ifc_entity.
  destruct (e_id e =? 0); simpl; rewrite labels_store_attributes;
    destruct h; simpl.
  - apply leibniz_equiv. intros T.
    rewrite !labels_add_hierarchy_labels. reflexivity.
  - apply (right_id_L ∅ (∪)).
  - apply leibniz_equiv. intros T.
    rewrite !labels_add_hierarchy_labels. reflexivity.
  - apply (right_id_L ∅ (∪)).
Qed.

Lemma builder_items_get (key : string) (e : entity) (f : ifc_file) (h : bool)
    (k : nat) :
  dict_get key (items (fst (create_pure_node_from_ifc_entity uuid4 e f h k))) =
  match last_stored key (e_args e) with
  | Some v => Some v
  | None =>
      if String.eqb "id" key then Some (VStr (initial_id e k))
      else if String.eqb "name" key then Some (VStr (is_a e))
      else None
  end.
Proof.
  unfold create_pure_node_from_ifc_entity, initial_id.
  destruct (e_id e =? 0); simpl; rewrite store_attributes_get;
    destruct (last_stored key (e_args e)); try reflexivity;
    destruct h; simpl; rewrite ?items_add_hierarchy_labels; simpl;
    destruct (String.eqb "id" key); reflexivity.
Qed.

Lemma builder_primarykey (e : entity) (f : ifc_file) (h : bool) (k : nat) :
  primarykey (fst (create_pure_node_from_ifc_entity uuid4 e f h k)) =
  match last_stored "id" (e_args e) with
  | Some v => v
  | None => VStr (initial_id e k)
  end.
Proof.
  pose proof (builder_items_get "id" e f h k) as Hget.
  unfold create_pure_node_from_ifc_entity in *.
  destruct (e_id e =? 0); simpl in *; rewrite Hget;
    destruct (last_stored "id" (e_args e)); reflexivity.
Qed.

Lemma builder_primarylabel (e : entity) (f : ifc_file) (h : bool) (k : nat) :
  primarylabel (fst (create_pure_node_from_ifc_entity uuid4 e f h k)) =
  match last_stored "name" (e_args e) with
  | Some v => v
  | None => VStr (is_a e)
  end.
Proof.
  pose proof (builder_items_get "name" e f h k) as Hget.
  unfold create_pure_node_from_ifc_entity in *.
  destruct (e_id e =? 0); simpl in *; rewrite Hget;
    destruct (last_stored "name" (e_args e)); reflexivity.
Qed.

Lemma last_stored_named (k : string) (args : list argument) (v : value) :
  last_stored k args = Some v -> In k (map arg_name args).
Proof.
  revert v. induction args as [|a args IH]; intros v; cbn [last_stored map];
    [discriminate|].
  destruct (last_stored k args) as [w|].
  - intros _. right. apply (IH w). reflexivity.
  - destruct (negb _); cbn [andb]; [|discriminate].
    destruct (String.eqb (arg_name a) k) eqn:E; [|discriminate].
    apply String.eqb_eq in E. intros _. left. exact E.
Qed.

Lemma last_stored_unique (args : list argument) (nm ty : string) (v : value) :
  List.NoDup (map arg_name args) ->
  In (Argument nm ty v) args ->
  in_strings ty attributes_type = false ->
  last_stored nm args = Some v.
Proof.
  intros Hnd Hin Hty.
  induction args as [|a args IH]; [destruct Hin|].
  cbn [map] in Hnd. apply NoDup_cons_iff in Hnd as [Hnotin Hnd].
  cbn [last_stored]. destruct Hin as [->|Hin].
  - cbn [arg_name arg_type arg_value] in *.
    destruct (last_stored nm args) eqn:E.
    + exfalso. apply Hnotin. eapply last_stored_named. exact E.
    + rewrite Hty, String.eqb_refl. reflexivity.
  - rewrite (IH Hnd Hin). reflexivity.
Qed.

Lemma last_stored_absent (k : string) (args : list argument) :
  (forall a, In a args ->
             in_strings (arg_type a) attributes_type = false ->
             arg_name a <> k) ->
  last_stored k args = None.
Proof.
  induction args as [|a args IH]; intros Hno; cbn [last_stored]; [reflexivity|].
  rewrite IH by (intros b Hb; apply Hno; right; exact Hb).
  destruct (in_strings (arg_type a) attributes_type) eqn:E; [reflexivity|].
  cbn [negb andb].
  destruct (String.eqb (arg_name a) k) eqn:E'; [|reflexivity].
  apply String.eqb_eq in E'. exfalso.
  apply (Hno a); [left; reflexivity | exact E | exact E'].
Qed.

(** C8. With [hierarchy] set, a type tag is a label of the built node exactly
    when it is in the file's type index and the entity is of that type;
    without it, the only label is the entity's primary type tag. *)
Theorem hierarchy_labels (e : entity) (f : ifc_file) (k : nat) :
  (forall T : string,
      T ∈ labels (fst (create_pure_node_from_ifc_entity uuid4 e f true k)) <->
      In T (types_with_super f) /\ is_a_of e T = true) /\
  labels (fst (create_pure_node_from_ifc_entity uuid4 e f false k)) =
    {[ is_a e ]}.
Proof.
  split.
  - intros T. rewrite builder_labels, labels_add_hierarchy_labels.
    cbn [labels Node_new]. rewrite elem_of_empty. intuition.
  - apply builder_labels.
Qed.

(** C10. A stored attribute named [id] or [name] replaces the entry the
    builder wrote first, and the primary key, respectively the primary
    label, is then the attribute's value. *)
Theorem stored_id_name_override (e : entity) (f : ifc_file) (h : bool)
    (k : nat) (nm ty : string) (v : value) :
  List.NoDup (map arg_name (e_args e)) ->
  In (Argument nm ty v) (e_args e) ->
  in_strings ty attributes_type = false ->
  (nm = "id" ->
   dict_get "id" (items (fst (create_pure_node_from_ifc_entity uuid4 e f h k)))
     = Some v /\
   primarykey (fst (create_pure_node_from_ifc_entity uuid4 e f h k)) = v) /\
  (nm = "name" ->
   dict_get "name" (items (fst (create_pure_node_from_ifc_entity uuid4 e f h k)))
     = Some v /\
   primarylabel (fst (create_pure_node_from_ifc_entity uuid4 e f h k)) = v).
Proof.
  intros Hnd Hin Hty.
  pose proof (last_stored_unique _ _ _ _ Hnd Hin Hty) as Hlast.
  split; intros ->.
  - rewrite builder_items_get, builder_primarykey, Hlast. split; reflexivity.
  - rewrite builder_items_get, builder_primarylabel, Hlast. split; reflexivity.
Qed.

End Properties.

(** ** The builder and the UUIDs it draws *)

Lemma builder_same_draw (u1 u2 : nat -> string) (e : entity) (f : ifc_file)
    (h : bool) (k1 k2 : nat) :
  (e_id e = 0 -> u1 k1 = u2 k2) ->
  fst (create_pure_node_from_ifc_entity u1 e f h k1) =
  fst (create_pure_node_from_ifc_entity u2 e f h k2).
Proof.
  intros Hdraw. unfold create_pure_node_from_ifc_entity.
  destruct (e_id e =? 0) eqn:E; simpl.
  - apply Z.eqb_eq in E. rewrite (Hdraw E). reflexivity.
  - reflexivity.
Qed.

(** C5, as the program has it. The built node is a function of the entity,
    the file, the flag and the UUID drawn. For an entity with a non-zero
    identifier no UUID is drawn: the call leaves the state as it is and
    returns the same node whenever it is made. For an entity with identifier
    0 exactly one UUID is drawn; two calls that draw the same UUID return
    the same node, and, when the entity has no stored attribute named [id],
    two calls that draw different UUIDs return nodes with different
    identities. *)
Theorem builder_pure_up_to_uuid (e : entity) (f : ifc_file) (h : bool) :
  (e_id e <> 0 ->
   forall (u1 u2 : nat -> string) (k1 k2 : nat),
     create_pure_node_from_ifc_entity u1 e f h k1 =
     (fst (create_pure_node_from_ifc_entity u2 e f h k2), k1)) /\
  (e_id e = 0 ->
   forall (u1 u2 : nat -> string) (k1 k2 : nat),
     snd (create_pure_node_from_ifc_entity u1 e f h k1) = S k1 /\
     (u1 k1 = u2 k2 ->
      fst (create_pure_node_from_ifc_entity u1 e f h k1) =
      fst (create_pure_node_from_ifc_entity u2 e f h k2)) /\
     ((forall a, In a (e_args e) ->
                 in_strings (arg_type a) attributes_type = false ->
                 arg_name a <> "id") ->
      u1 k1 <> u2 k2 ->
      primarykey (fst (create_pure_node_from_ifc_entity u1 e f h k1)) <>
      primarykey (fst (create_pure_node_from_ifc_entity u2 e f h k2)))).
Proof.
  split.
  - intros Hid u1 u2 k1 k2.
    rewrite (surjective_pairing (create_pure_node_from_ifc_entity u1 e f h k1)).
    rewrite builder_drawn.
    apply Z.eqb_neq in Hid. rewrite Hid. f_equal.
    apply builder_same_draw. intros E. apply Z.eqb_neq in Hid. contradiction.
  - intros Hid u1 u2 k1 k2. split; [|split].
    + rewrite builder_drawn, Hid. reflexivity.
    + intros Hu. apply builder_same_draw. intros _. exact Hu.
    + intros Hno Hu. rewrite !builder_primarykey.
      rewrite (last_stored_absent _ _ Hno).
      unfold initial_id. rewrite Hid. cbn.
      intros Heq. injection Heq as Heq. contradiction.
Qed.

(** C6, as the program has it. When no UUID is drawn twice, two calls of the
    builder on entities with identifier 0 that have no stored attribute
    named [id], the second made after the first, return nodes with distinct
    identities. *)
Theorem fresh_identities_distinct (uuid4 : nat -> string)
    (e1 e2 : entity) (f1 f2 : ifc_file) (h1 h2 : bool) (k1 k2 : nat) :
  (forall i j, uuid4 i = uuid4 j -> i = j) ->
  e_id e1 = 0 -> e_id e2 = 0 ->
  (forall a, In a (e_args e1) ->
             in_strings (arg_type a) attributes_type = false ->
             arg_name a <> "id") ->
  (forall a, In a (e_args e2) ->
             in_strings (arg_type a) attributes_type = false ->
             arg_name a <> "id") ->
  (snd (create_pure_node_from_ifc_entity uuid4 e1 f1 h1 k1) <= k2)%nat ->
  primarykey (fst (create_pure_node_from_ifc_entity uuid4 e1 f1 h1 k1)) <>
  primarykey (fst (create_pure_node_from_ifc_entity uuid4 e2 f2 h2 k2)).
Proof.
  intros Hinj Hid1 Hid2 Hno1 Hno2 Hafter.
  rewrite builder_drawn, Hid1 in Hafter. cbn in Hafter.
  rewrite !builder_primarykey.
  rewrite (last_stored_absent _ _ Hno1), (last_stored_absent _ _ Hno2).
  unfold initial_id. rewrite Hid1, Hid2. cbn.
  intros Heq. injection Heq as Heq. apply Hinj in Heq. lia.
Qed.

(** ** Loops that keep a relation between states *)

Section Loops.

Context {S : Type} (R : S -> S -> Prop).
Hypothesis R_refl : forall s, R s s.
Hypothesis R_trans : forall s1 s2 s3, R s1 s2 -> R s2 s3 -> R s1 s3.

(** A computation keeps [R] when the state it leaves is related to the
    state it started from, whether it returns or raises. *)
Definition keeps {A : Type} (c : M S A) : Prop := forall s, R s (snd (c s)).

Lemma keeps_ret {A : Type} (a : A) : keeps (ret a).
Proof. intros s. apply R_refl. Qed.

Lemma keeps_raise {A : Type} (e : exn) : keeps (@raise S A e).
Proof. intros s. apply R_refl. Qed.

Lemma keeps_bind {A B : Type} (c : M S A) (k : A -> M S B) :
  keeps c -> (forall a, keeps (k a)) -> keeps (bind c k).
Proof.
  intros Hc Hk s. unfold bind. specialize (Hc s).
  destruct (c s) as [[a|e] s1]; cbn [snd] in *.
  - eapply R_trans; [exact Hc | apply Hk].
  - exact Hc.
Qed.

Lemma keeps_for_each {A : Type} (l : list A) (body : A -> M S unit) :
  (forall x, keeps (body x)) -> keeps (for_each l body).
Proof.
  intros Hbody. induction l as [|x l IH]; cbn [for_each].
  - apply keeps_ret.
  - apply keeps_bind; [apply Hbody | intros _; exact IH].
Qed.

(** A loop that returns has run its body on every element, each time from a
    state related to the loop's first and to a state related to its last. *)
Lemma for_each_reaches {A : Type} (l : list A) (body : A -> M S unit)
    (x : A) (s s' : S) :
  (forall y, keeps (body y)) ->
  In x l ->
  for_each l body s = (Ok tt, s') ->
  exists s1 s2, R s s1 /\ body x s1 = (Ok tt, s2) /\ R s2 s'.
Proof.
  intros Hbody. revert s. induction l as [|y l IH]; intros s Hin Hrun.
  - destruct Hin.
  - cbn [for_each] in Hrun. unfold bind in Hrun.
    destruct (body y s) as [[[]|e] s1] eqn:Ey; [|discriminate].
    destruct Hin as [->|Hin].
    + exists s, s1. split; [apply R_refl|]. split; [exact Ey|].
      pose proof (keeps_for_each l body Hbody s1) as Hk.
      rewrite Hrun in Hk. exact Hk.
    + destruct (IH s1 Hin Hrun) as (t1 & t2 & H1 & H2 & H3).
      exists t1, t2. split; [|split]; auto.
      eapply R_trans; [|exact H1].
      pose proof (Hbody y s) as Hk. rewrite Ey in Hk. exact Hk.
Qed.

End Loops.

(** * The extractor *)

Section Extraction.

Variable rt : runtime.
Variable uuid4 : nat -> string.

(** What every step of the extractor after the first [merge] respects: the
    node set stays, relationships are only added, and UUIDs are only
    drawn. *)
Definition grows (s s' : state) : Prop :=
  nodes (graph s') = nodes (graph s) /\
  (forall r, In r (relationships (graph s)) ->
             In r (relationships (graph s'))) /\
  (drawn s <= drawn s')%nat.

Lemma grows_refl (s : state) : grows s s.
Proof. unfold grows. auto. Qed.

Lemma grows_trans (s1 s2 s3 : state) : grows s1 s2 -> grows s2 s3 -> grows s1 s3.
Proof.
  intros (Hn1 & Hr1 & Hd1) (Hn2 & Hr2 & Hd2). unfold grows.
  split; [congruence|]. split; [auto | lia].
Qed.

Lemma build_run (e : entity) (f : ifc_file) (s : state) :
  build uuid4 e f s =
  (Ok (fst (create_pure_node_from_ifc_entity uuid4 e f true (drawn s))),
   {| graph := graph s;
      drawn := snd (create_pure_node_from_ifc_entity uuid4 e f true (drawn s)) |}).
Proof.
  unfold build.
  destruct (create_pure_node_from_ifc_entity uuid4 e f true (drawn s));
    reflexivity.
Qed.

Lemma builder_draws (e : entity) (f : ifc_file) (h : bool) (k : nat) :
  (k <= snd (create_pure_node_from_ifc_entity uuid4 e f h k))%nat.
Proof. rewrite builder_drawn. destruct (e_id e =? 0); lia. Qed.

Lemma keeps_build (e : entity) (f : ifc_file) : keeps grows (build uuid4 e f).
Proof.
  intros s. rewrite build_run. unfold grows. cbn.
  split; [reflexivity|]. split; [auto | apply builder_draws].
Qed.

Lemma graph_merge_rel (r : Relationship) (s : state) :
  graph_merge rt (ORel r) s =
  (Ok tt,
   {| graph :=
        {| nodes := nodes (graph s);
           relationships :=
             set_add (Relationship_hash rt) (Relationship_eq rt) r
               (relationships (graph s)) |};
      drawn := drawn s |}).
Proof. reflexivity. Qed.

Lemma keeps_merge_rel (r : Relationship) : keeps grows (graph_merge rt (ORel r)).
Proof.
  intros s. rewrite graph_merge_rel. unfold grows. cbn.
  split; [reflexivity|]. split; [|lia].
  intros r' Hin. apply set_add_incl. exact Hin.
Qed.

Lemma keeps_link (node : Node) (nm : string) (e : entity) (f : ifc_file) :
  keeps grows
    (bind (build uuid4 e f) (fun sub_node =>
       graph_merge rt (ORel {| start_node := node; rel_type := nm;
                              end_node := sub_node |}))).
Proof.
  apply keeps_bind; [apply grows_trans | apply keeps_build |].
  intros n. apply keeps_merge_rel.
Qed.

Lemma keeps_as_entity (v : value) : keeps grows (@as_entity state v).
Proof.
  destruct v; first [apply keeps_ret | apply keeps_raise]; apply grows_refl.
Qed.

Lemma keeps_forward_attribute (node : Node) (e : entity) (f : ifc_file)
    (a : argument) :
  keeps grows (forward_attribute rt uuid4 node e f a).
Proof.
  unfold forward_attribute.
  destruct (truthy rt (arg_value a)); [|apply keeps_ret, grows_refl].
  destruct (String.eqb (arg_type a) "ENTITY INSTANCE").
  - apply keeps_bind; [apply grows_trans | apply keeps_as_entity |].
    intros referenced.
    destruct (_ && _); [apply keeps_ret, grows_refl | apply keeps_link].
  - destruct (String.eqb (arg_type a) "AGGREGATE OF ENTITY INSTANCE");
      [|apply keeps_ret, grows_refl].
    apply keeps_bind; [apply grows_trans | |].
    + unfold iterate. destruct (arg_value a);
        first [apply keeps_ret | apply keeps_raise]; apply grows_refl.
    + intros elements.
      apply keeps_for_each; [apply grows_refl | apply grows_trans |].
      intros v. apply keeps_bind; [apply grows_trans | apply keeps_as_entity |].
      intros sub. apply keeps_link.
Qed.

Lemma keeps_inverse_attribute (node : Node) (f : ifc_file)
    (inv : string * list Z) :
  keeps grows (inverse_attribute rt uuid4 node f inv).
Proof.
  destruct inv as [rel_name ids]. unfold inverse_attribute.
  destruct ids as [|i ids]; [apply keeps_ret, grows_refl|].
  apply keeps_for_each; [apply grows_refl | apply grows_trans |].
  intros wrapped_id. apply keeps_bind; [apply grows_trans | |].
  - unfold file_by_id. destruct (by_id f wrapped_id);
      first [apply keeps_ret | apply keeps_raise]; apply grows_refl.
  - intros rel_entity. apply keeps_link.
Qed.

(** The OwnerHistory test of the extractor, as a proposition. *)
Lemma owner_history_test (referenced e : entity) :
  in_strings (is_a referenced) ["IfcOwnerHistory"]
    && negb (String.eqb (is_a e) "IfcProject") = false <->
  (is_a referenced = "IfcOwnerHistory" -> is_a e = "IfcProject").
Proof.
  unfold in_strings. cbn [existsb]. rewrite orb_false_r.
  destruct (String.eqb_spec (is_a referenced) "IfcOwnerHistory") as [Ho|Ho];
    destruct (String.eqb_spec (is_a e) "IfcProject") as [Hp|Hp]; cbn;
    intuition congruence.
Qed.

(** One processed single reference: the referenced node is built and only
    the relationship is merged. *)
Lemma forward_single_reference (node : Node) (e : entity) (f : ifc_file)
    (a : argument) (referenced : entity) (s : state) :
  arg_type a = "ENTITY INSTANCE" ->
  arg_value a = VEntity referenced ->
  truthy rt (arg_value a) = true ->
  (is_a referenced = "IfcOwnerHistory" -> is_a e = "IfcProject") ->
  forward_attribute rt uuid4 node e f a s =
  (Ok tt,
   {| graph :=
        {| nodes := nodes (graph s);
           relationships :=
             set_add (Relationship_hash rt) (Relationship_eq rt)
               {| start_node := node; rel_type := arg_name a;
                  end_node :=
                    fst (create_pure_node_from_ifc_entity uuid4 referenced f
                           true (drawn s)) |}
               (relationships (graph s)) |};
      drawn :=
        snd (create_pure_node_from_ifc_entity uuid4 referenced f true
               (drawn s)) |}).
Proof.
  intros Hty Hval Htruthy Hrule. unfold forward_attribute.
  rewrite Htruthy, Hty, String.eqb_refl, Hval. cbn [as_entity].
  unfold bind at 1. cbn [ret].
  apply owner_history_test in Hrule. rewrite Hrule.
  unfold bind. rewrite build_run, graph_merge_rel. reflexivity.
Qed.

(** Whatever the outcome, the extractor adds one node to the node set: the
    node of the entity it is called on. *)
Lemma extractor_nodes (e : entity) (f : ifc_file) (s : state) :
  nodes (graph (snd (create_graph_from_ifc_entity_all rt uuid4 e f s))) =
  set_add (Node_hash rt) (Node_eq rt)
    (fst (create_pure_node_from_ifc_entity uuid4 e f true (drawn s)))
    (nodes (graph s)).
Proof.
  unfold create_graph_from_ifc_entity_all.
  unfold bind at 1. rewrite build_run.
  unfold bind at 1. cbn [graph_merge merge graph drawn].
  set (node := fst (create_pure_node_from_ifc_entity uuid4 e f true (drawn s))).
  match goal with
  | |- nodes (graph (snd (bind ?c ?k ?s2))) = _ =>
      assert (keeps grows (bind c k)) as Hk
  end.
  { apply keeps_bind; [apply grows_trans | |].
    - apply keeps_for_each; [apply grows_refl | apply grows_trans |].
      intros a. apply keeps_forward_attribute.
    - intros _. apply keeps_for_each; [apply grows_refl | apply grows_trans |].
      intros inv. apply keeps_inverse_attribute. }
  match goal with
  | |- nodes (graph (snd (bind ?c ?k ?s2))) = _ =>
      destruct (Hk s2) as (Hn & _ & _)
  end.
  rewrite Hn. reflexivity.
Qed.

Lemma set_contains_add (x m : Node) (ns : list Node) :
  set_contains rt m (set_add (Node_hash rt) (Node_eq rt) x ns) =
  set_contains rt m ns || Node_eq rt x m.
Proof.
  unfold set_contains, set_add.
  destruct (existsb (fun y => (Node_hash rt y =? Node_hash rt x)
                              && Node_eq rt y x) ns) eqn:E.
  - destruct (Node_eq rt x m) eqn:Exm; [|rewrite orb_false_r; reflexivity].
    rewrite orb_true_r. apply existsb_exists.
    apply existsb_exists in E as (y & Hy & Hyx).
    apply andb_prop in Hyx as [Hh _]. apply Z.eqb_eq in Hh.
    unfold Node_eq in *. apply Z.eqb_eq in Exm.
    exists y. split; [exact Hy|].
    rewrite Hh, Exm, Z.eqb_refl. reflexivity.
  - rewrite existsb_app. cbn [existsb]. rewrite orb_false_r.
    unfold Node_eq. rewrite andb_diag. reflexivity.
Qed.

(** C1, as the program has it. When the extractor returns, the node set has
    gained the entity's own node and nothing else, and for every processed
    single reference the relationship set holds a relationship equal to
    (entity node, attribute name, node built for the referenced entity).
    The node built for the referenced entity is not merged: a node, and so
    an endpoint of the relationship, is found in the node set afterwards
    exactly when it was found there before or is equal to the entity's own
    node. *)
Theorem extract_single_reference (e : entity) (f : ifc_file) (s s' : state)
    (a : argument) (referenced : entity) :
  create_graph_from_ifc_entity_all rt uuid4 e f s = (Ok tt, s') ->
  In a (e_args e) ->
  arg_type a = "ENTITY INSTANCE" ->
  arg_value a = VEntity referenced ->
  truthy rt (arg_value a) = true ->
  (is_a referenced = "IfcOwnerHistory" -> is_a e = "IfcProject") ->
  nodes (graph s') =
    set_add (Node_hash rt) (Node_eq rt)
      (fst (create_pure_node_from_ifc_entity uuid4 e f true (drawn s)))
      (nodes (graph s)) /\
  (exists (r : Relationship) (k : nat),
    In r (relationships (graph s')) /\
    Relationship_eq rt r
      {| start_node :=
           fst (create_pure_node_from_ifc_entity uuid4 e f true (drawn s));
         rel_type := arg_name a;
         end_node :=
           fst (create_pure_node_from_ifc_entity uuid4 referenced f true k) |}
    = true) /\
  (forall m,
      set_contains rt m (nodes (graph s')) = true <->
      set_contains rt m (nodes (graph s)) = true \/
      Node_eq rt
        (fst (create_pure_node_from_ifc_entity uuid4 e f true (drawn s))) m
      = true).
Proof.
  intros Hrun Hin Hty Hval Htruthy Hrule.
  assert (Hnodes : nodes (graph s') =
                   set_add (Node_hash rt) (Node_eq rt)
                     (fst (create_pure_node_from_ifc_entity uuid4 e f true
                             (drawn s)))
                     (nodes (graph s))).
  { pose proof (extractor_nodes e f s) as Hn. rewrite Hrun in Hn. exact Hn. }
  split; [exact Hnodes|]. split.
  2:{ intros m. rewrite Hnodes, set_contains_add. apply orb_true_iff. }
  - unfold create_graph_from_ifc_entity_all in Hrun.
    unfold bind at 1 in Hrun. rewrite build_run in Hrun.
    unfold bind at 1 in Hrun. cbn [graph_merge merge graph drawn] in Hrun.
    set (node := fst (create_pure_node_from_ifc_entity uuid4 e f true (drawn s)))
      in *.
    unfold bind at 1 in Hrun.
    match type of Hrun with
    | context [for_each (e_args e) ?body ?s2] =>
        destruct (for_each (e_args e) body s2) as [[[]|x] s3] eqn:Eargs;
          [|discriminate]
    end.
    destruct (for_each_reaches grows grows_refl grows_trans _ _ a _ _
                (keeps_forward_attribute node e f) Hin Eargs)
      as (t1 & t2 & _ & Hstep & (_ & Hrels & _)).
    rewrite (forward_single_reference node e f a referenced t1
               Hty Hval Htruthy Hrule) in Hstep.
    injection Hstep as Ht2.
    pose proof (keeps_for_each grows grows_refl grows_trans
                  (e_inverses e) (inverse_attribute rt uuid4 node f)
                  (keeps_inverse_attribute node f) s3) as Hinv.
    rewrite Hrun in Hinv. destruct Hinv as (_ & Hrels' & _). cbn [snd] in Hrels'.
    destruct (set_add_holds (Relationship_hash rt) (Relationship_eq rt)
                {| start_node := node; rel_type := arg_name a;
                   end_node :=
                     fst (create_pure_node_from_ifc_entity uuid4 referenced f
                            true (drawn t1)) |}
                (relationships (graph t1)) (Relationship_eq_refl rt))
      as (y & Hy & _ & Heq).
    exists y, (drawn t1). split; [|exact Heq].
    apply Hrels', Hrels. rewrite <- Ht2. exact Hy.
Qed.

(** C2, as the program has it. A single reference to an IfcOwnerHistory
    entity is passed over when the entity being extracted is not an
    IfcProject: the graph and the UUIDs drawn stay as they were. When the
    entity is an IfcProject, the node of the referenced entity is built and
    the relationship named by the attribute is merged; the node set stays as
    it was. *)
Theorem owner_history_rule (node : Node) (e : entity) (f : ifc_file)
    (a : argument) (referenced : entity) (s : state) :
  arg_type a = "ENTITY INSTANCE" ->
  arg_value a = VEntity referenced ->
  is_a referenced = "IfcOwnerHistory" ->
  (is_a e <> "IfcProject" ->
   forward_attribute rt uuid4 node e f a s = (Ok tt, s)) /\
  (is_a e = "IfcProject" -> truthy rt (arg_value a) = true ->
   forward_attribute rt uuid4 node e f a s =
   (Ok tt,
    {| graph :=
         {| nodes := nodes (graph s);
            relationships :=
              set_add (Relationship_hash rt) (Relationship_eq rt)
                {| start_node := node; rel_type := arg_name a;
                   end_node :=
                     fst (create_pure_node_from_ifc_entity uuid4 referenced f
                            true (drawn s)) |}
                (relationships (graph s)) |};
       drawn :=
         snd (create_pure_node_from_ifc_entity uuid4 referenced f true
                (drawn s)) |})).
Proof.
  intros Hty Hval Howner. split.
  - intros Hnot. unfold forward_attribute.
    destruct (truthy rt (arg_value a)); [|reflexivity].
    rewrite Hty, String.eqb_refl, Hval. cbn [as_entity].
    unfold bind, ret. rewrite Howner.
    apply String.eqb_neq in Hnot. rewrite Hnot. reflexivity.
  - intros Hproject Htruthy.
    apply forward_single_reference; auto.
Qed.

End Extraction.

(** * The emitter *)

Section Emission.

Variable driver : Driver.
Variable database : string.

(** The statement that creates node [n]. *)
Definition creates (n : Node) (q : query * string) : Prop :=
  exists label, dict_get "name" (items n) = Some label /\
                q = (CreateNode label n, database).

(** A statement that matches the endpoints of relationship [r] by their
    [id] entries. *)
Definition matches (r : Relationship) (q : query * string) : Prop :=
  exists pl pid cl cid,
    dict_get "name" (items (start_node r)) = Some pl /\
    dict_get "id" (items (start_node r)) = Some pid /\
    dict_get "name" (items (end_node r)) = Some cl /\
    dict_get "id" (items (end_node r)) = Some cid /\
    q = (MatchCreate pl pid cl cid (rel_type r), database).

Lemma execute_query_run (q : query) (log : sink) :
  execute_query driver q database log = (Ok tt, (log ++ [(q, database)])%list) \/
  exists msg, execute_query driver q database log = (Raise (DriverError msg), log).
Proof.
  unfold execute_query. destruct (driver log (q, database)) as [msg|].
  - right. exists msg. reflexivity.
  - left. reflexivity.
Qed.

Lemma emit_node_run (n : Node) (log : sink) :
  emit_node driver database n log =
  match dict_get "name" (items n) with
  | Some label => execute_query driver (CreateNode label n) database log
  | None => (Raise (KeyError "name"), log)
  end.
Proof.
  unfold emit_node, bind, getitem, Node_getitem.
  destruct (dict_get "name" (items n)); reflexivity.
Qed.

Lemma emit_node_cases (n : Node) (log : sink) :
  (exists q, creates n q /\
             emit_node driver database n log = (Ok tt, (log ++ [q])%list)) \/
  (exists e, emit_node driver database n log = (Raise e, log)).
Proof.
  rewrite emit_node_run.
  destruct (dict_get "name" (items n)) as [label|] eqn:E;
    [|right; eexists; reflexivity].
  destruct (execute_query_run (CreateNode label n) log) as [->|[msg ->]].
  - left. eexists. split; [|reflexivity]. exists label. auto.
  - right. eexists. reflexivity.
Qed.

Lemma emit_relationship_run (r : Relationship) (log : sink) :
  (exists q, matches r q /\
             emit_relationship driver database r log =
             (Ok tt, (log ++ [q])%list)) \/
  (exists e, emit_relationship driver database r log = (Raise e, log)).
Proof.
  unfold emit_relationship, bind, getitem, Node_getitem, matches.
  destruct (dict_get "name" (items (start_node r))) as [pl|] eqn:E1;
    [|right; eexists; reflexivity].
  destruct (dict_get "id" (items (start_node r))) as [pid|] eqn:E2;
    [|right; eexists; reflexivity].
  destruct (dict_get "name" (items (end_node r))) as [cl|] eqn:E3;
    [|right; eexists; reflexivity].
  destruct (dict_get "id" (items (end_node r))) as [cid|] eqn:E4;
    [|right; eexists; reflexivity].
  destruct (execute_query_run (MatchCreate pl pid cl cid (rel_type r)) log)
    as [->|[msg ->]].
  - left. eexists. split; [|reflexivity]. exists pl, pid, cl, cid. auto.
  - right. eexists. reflexivity.
Qed.

(** The node loop appends the statements of a prefix of the nodes, of all
    of them when it returns. *)
Lemma emit_nodes_log (ns : list Node) (log : sink) :
  exists ns1 ns2 qs,
    ns = (ns1 ++ ns2)%list /\
    snd (for_each ns (emit_node driver database) log) = (log ++ qs)%list /\
    Forall2 creates ns1 qs /\
    (forall s', for_each ns (emit_node driver database) log = (Ok tt, s') ->
                ns2 = []).
Proof.
  revert log. induction ns as [|n ns IH]; intros log.
  - exists [], [], []. cbn. rewrite app_nil_r. auto.
  - cbn [for_each]. unfold bind.
    destruct (emit_node_cases n log) as [(q & Hq & ->)|(e & ->)].
    + destruct (IH (log ++ [q])%list) as (ns1 & ns2 & qs & Hns & Hlog & Hqs & Hok).
      exists (n :: ns1), ns2, (q :: qs).
      split; [cbn; congruence|]. split.
      { rewrite Hlog, <- app_assoc. reflexivity. }
      split; [|exact Hok].
      constructor; [exact Hq | exact Hqs].
    + exists [], (n :: ns), []. cbn. rewrite app_nil_r.
      split; [reflexivity|]. split; [reflexivity|]. split; [constructor|].
      intros s' Hs'. discriminate.
Qed.

(** The relationship loop appends statements that match relationships of
    the list. *)
Lemma emit_relationships_log (rs : list Relationship) (log : sink) :
  exists qs,
    snd (for_each rs (emit_relationship driver database) log) =
      (log ++ qs)%list /\
    Forall (fun q => exists r, In r rs /\ matches r q) qs.
Proof.
  revert log. induction rs as [|r rs IH]; intros log.
  - exists []. cbn. rewrite app_nil_r. auto.
  - cbn [for_each]. unfold bind.
    destruct (emit_relationship_run r log) as [(q & Hq & ->)|(e & ->)].
    + destruct (IH (log ++ [q])%list) as (qs & Hlog & Hqs).
      exists (q :: qs). split.
      { rewrite Hlog, <- app_assoc. reflexivity. }
      constructor.
      * exists r. split; [left; reflexivity | exact Hq].
      * eapply Forall_impl; [exact Hqs|].
        intros q' (r' & Hin & Hm). exists r'. split; [right|]; assumption.
    + exists []. cbn. rewrite app_nil_r. auto.
Qed.

(** The whole log: statements of a prefix of the nodes, then statements of
    relationships; there is none of the latter, and the emitter has not
    returned, unless every node has its statement. *)
Lemma emission_log (g : Graph) :
  exists ns1 ns2 qn qr,
    nodes g = (ns1 ++ ns2)%list /\
    snd (write_graph_to_neo4j g driver database []) = (qn ++ qr)%list /\
    Forall2 creates ns1 qn /\
    Forall (fun q => exists r, In r (relationships g) /\ matches r q) qr /\
    (qr <> [] -> ns2 = []) /\
    (fst (write_graph_to_neo4j g driver database []) = Ok tt -> ns2 = []).
Proof.
  unfold write_graph_to_neo4j, bind.
  destruct (emit_nodes_log (nodes g) [])
    as (ns1 & ns2 & qn & Hns & Hlog & Hqn & Hok).
  destruct (for_each (nodes g) (emit_node driver database) [])
    as [[[]|e] l1] eqn:E;
    cbn [snd] in Hlog; cbn [app] in Hlog; subst l1.
  - destruct (emit_relationships_log (relationships g) qn) as (qr & Hlog & Hqr).
    exists ns1, ns2, qn, qr.
    split; [exact Hns|]. split; [exact Hlog|]. split; [exact Hqn|].
    split; [exact Hqr|].
    split; intros _; eapply Hok; reflexivity.
  - exists ns1, ns2, qn, []. rewrite app_nil_r.
    split; [exact Hns|]. split; [reflexivity|]. split; [exact Hqn|].
    split; [constructor|].
    split; [intros Hne; contradiction | cbn; discriminate].
Qed.

(** C3, as the program has it. In the statements the sink has executed for
    the emitter, whatever the driver does: every node-creation statement
    precedes every relationship statement; every node-creation statement is
    that of a node of the graph, so an identity that no node of the graph
    carries has no node-creation statement; a relationship statement is
    that of a relationship of the graph and matches on the [id] entries of
    its two endpoints; and when it is executed, every node of the graph, so
    every node of the graph that carries one of the two identities, has had
    its creation statement. *)
Theorem emission_order (g : Graph) (r : res unit) (log : sink) :
  write_graph_to_neo4j g driver database [] = (r, log) ->
  (forall i j label n pl pid cl cid rt d d',
      log !! i = Some (CreateNode label n, d) ->
      log !! j = Some (MatchCreate pl pid cl cid rt, d') ->
      (i < j)%nat) /\
  (forall i label n d,
      log !! i = Some (CreateNode label n, d) ->
      In n (nodes g) /\ creates n (CreateNode label n, d)) /\
  (forall x,
      (forall n, In n (nodes g) -> dict_get "id" (items n) <> Some x) ->
      forall i label n d,
        log !! i = Some (CreateNode label n, d) ->
        dict_get "id" (items n) <> Some x) /\
  (forall j pl pid cl cid rt d,
      log !! j = Some (MatchCreate pl pid cl cid rt, d) ->
      (exists rel, In rel (relationships g) /\
                   matches rel (MatchCreate pl pid cl cid rt, d)) /\
      (forall n, In n (nodes g) ->
                 exists i q, (i < j)%nat /\ log !! i = Some q /\ creates n q)).
Proof.
  intros Hrun.
  destruct (emission_log g)
    as (ns1 & ns2 & qn & qr & Hns & Hlog & Hqn & Hqr & Hall & _).
  rewrite Hrun in Hlog. cbn [snd] in Hlog. subst log.
  assert (Hcreate : forall i label n d,
             (qn ++ qr)%list !! i = Some (CreateNode label n, d) ->
             (i < length qn)%nat).
  { intros i label n d Hi.
    destruct (Nat.lt_ge_cases i (length qn)) as [Hlt|Hge]; [exact Hlt|].
    rewrite lookup_app_r in Hi by exact Hge.
    rewrite Forall_lookup in Hqr.
    destruct (Hqr _ _ Hi) as (rel & _ & (pl & pid & cl & cid & _ & _ & _ & _ & Hq)).
    discriminate. }
  assert (Hmatch : forall j pl pid cl cid rt d,
             (qn ++ qr)%list !! j = Some (MatchCreate pl pid cl cid rt, d) ->
             (length qn <= j)%nat /\
             qr !! (j - length qn)%nat = Some (MatchCreate pl pid cl cid rt, d)).
  { intros j pl pid cl cid rt d Hj.
    destruct (Nat.lt_ge_cases j (length qn)) as [Hlt|Hge].
    - rewrite lookup_app_l in Hj by exact Hlt.
      destruct (Forall2_lookup_r _ _ _ _ _ Hqn Hj) as (n & _ & (label & _ & Hq)).
      discriminate.
    - split; [exact Hge|]. rewrite lookup_app_r in Hj by exact Hge. exact Hj. }
  assert (Hnode : forall i label n d,
             (qn ++ qr)%list !! i = Some (CreateNode label n, d) ->
             In n (nodes g) /\ creates n (CreateNode label n, d)).
  { intros i label n d Hi. pose proof (Hcreate _ _ _ _ Hi) as Hlt.
    rewrite lookup_app_l in Hi by exact Hlt.
    destruct (Forall2_lookup_r _ _ _ _ _ Hqn Hi) as (m & Hm & (lbl & Hlbl & Hq)).
    injection Hq as -> -> ->. split.
    - rewrite Hns. apply in_or_app. left.
      apply list_elem_of_In, list_elem_of_lookup. exists i. exact Hm.
    - exists lbl. auto. }
  split; [|split; [exact Hnode|split]].
  - intros i j label n pl pid cl cid rt d d' Hi Hj.
    apply Hcreate in Hi. apply Hmatch in Hj as [Hj _]. lia.
  - intros x Hx i label n d Hi. apply Hx. apply (Hnode i label n d Hi).
  - intros j pl pid cl cid rt d Hj.
    apply Hmatch in Hj as [Hge Hj]. split.
    + rewrite Forall_lookup in Hqr. exact (Hqr _ _ Hj).
    + intros n Hin.
      assert (ns2 = []) as ->.
      { apply Hall. intros ->. rewrite lookup_nil in Hj. discriminate. }
      rewrite app_nil_r in Hns. rewrite Hns in Hin.
      apply list_elem_of_In, list_elem_of_lookup in Hin as [i Hi].
      destruct (Forall2_lookup_l _ _ _ _ _ Hqn Hi) as (q & Hq & Hc).
      pose proof (lookup_lt_Some _ _ _ Hq) as Hlt.
      exists i, q. split; [lia|]. split; [|exact Hc].
      apply lookup_app_l_Some. exact Hq.
Qed.

End Emission.

(** * The models, run *)

(** The identities and the name of a relationship. *)
Definition triple (r : Relationship) : value * string * value :=
  (primarykey (start_node r), rel_type r, primarykey (end_node r)).

(** Every endpoint of every relationship is in the node set. *)
Definition endpoints_in_nodes (rt : runtime) (g : Graph) : Prop :=
  forall r, In r (relationships g) ->
            set_contains rt (start_node r) (nodes g) = true /\
            set_contains rt (end_node r) (nodes g) = true.

(** Every identity a relationship statement matches on is carried by an
    earlier node-creation statement. *)
Definition endpoints_created (log : sink) : Prop :=
  forall j pl pid cl cid rt d,
    log !! j = Some (MatchCreate pl pid cl cid rt, d) ->
    forall x, x = pid \/ x = cid ->
    exists i label n d',
      (i < j)%nat /\ log !! i = Some (CreateNode label n, d') /\
      dict_get "id" (items n) = Some x.

Definition built (e : entity) (f : ifc_file) (drawn : nat) : Node :=
  fst (create_pure_node_from_ifc_entity sample_uuid4 e f true drawn).

Definition extract (e : entity) (f : ifc_file) : res unit * state :=
  create_graph_from_ifc_entity_all sample_runtime sample_uuid4 e f empty_state.

Definition wall_state : state := snd (extract wall5 building_file).

Definition project_state : state := snd (extract project1 building_file).

Definition property_graph : Graph :=
  graph (snd (create_full_graph sample_runtime sample_uuid4 property_file
                empty_state)).

(** A driver that has every statement executed, and one that loses its
    connection once the sink has executed a statement. *)
Definition accepting : Driver := fun _ _ => None.

Definition failing_after_one : Driver :=
  fun log _ =>
    match log with
    | [] => None
    | _ => Some "ServiceUnavailable"
    end.

Definition property_log : res unit * sink :=
  write_graph_to_neo4j property_graph accepting "ifc-graph" [].

Lemma sample_uuid4_inj (i j : nat) : sample_uuid4 i = sample_uuid4 j -> i = j.
Proof.
  unfold sample_uuid4. intros Heq. cbn in Heq.
  repeat (injection Heq as Heq).
  exact (pretty_nat_inj i j Heq).
Qed.

(** The walker on the building model: five nodes, two relationships, the
    reference of the wall to its owner history passed over. *)
Example building_graph :
  let run := create_full_graph sample_runtime sample_uuid4 building_file
               empty_state in
  fst run = Ok tt /\
  map primarykey (nodes (graph (snd run))) =
    [VStr "1"; VStr "2"; VStr "5"; VStr "7"; VStr "9"] /\
  map triple (relationships (graph (snd run))) =
    [(VStr "1", "OwnerHistory", VStr "2");
     (VStr "5", "ObjectPlacement", VStr "7")].
Proof. vm_compute. auto. Qed.

(** Hierarchy labels of the wall. *)
Example wall_labels :
  labels (fst (create_pure_node_from_ifc_entity sample_uuid4 wall5
                 building_file true 0)) =
    {[ "IfcWall"; "IfcBuildingElement"; "IfcProduct" ]} /\
  labels (fst (create_pure_node_from_ifc_entity sample_uuid4 wall5
                 building_file false 0)) = {[ "IfcWall" ]}.
Proof. split; vm_compute; reflexivity. Qed.

(** ** C1 *)

(** Extracting the wall alone: the relationship to the placement (#7) is in
    the graph, a node for #7 is not. *)
Lemma extract_endpoint_counterexample :
  fst (extract wall5 building_file) = Ok tt /\
  map primarykey (nodes (graph wall_state)) = [VStr "5"] /\
  map triple (relationships (graph wall_state)) =
    [(VStr "5", "ObjectPlacement", VStr "7")] /\
  ~ endpoints_in_nodes sample_runtime (graph wall_state).
Proof.
  split; [vm_compute; reflexivity|].
  split; [vm_compute; reflexivity|].
  split; [vm_compute; reflexivity|].
  intros Hall.
  assert (exists r, In r (relationships (graph wall_state))) as [r Hr].
  { vm_compute. eexists. left. reflexivity. }
  pose proof (Hall r Hr) as [_ Hend].
  vm_compute in Hr. destruct Hr as [<-|[]].
  vm_compute in Hend. discriminate.
Qed.

Lemma extract_single_reference_witness :
  nodes (graph wall_state) =
    set_add (Node_hash sample_runtime) (Node_eq sample_runtime)
      (built wall5 building_file 0) [] /\
  (exists (r : Relationship) (k : nat),
    In r (relationships (graph wall_state)) /\
    Relationship_eq sample_runtime r
      {| start_node := built wall5 building_file 0;
         rel_type := "ObjectPlacement";
         end_node :=
           fst (create_pure_node_from_ifc_entity sample_uuid4 placement7
                  building_file true k) |} = true) /\
  (forall m,
      set_contains sample_runtime m (nodes (graph wall_state)) = true <->
      set_contains sample_runtime m [] = true \/
      Node_eq sample_runtime (built wall5 building_file 0) m = true).
Proof.
  apply (extract_single_reference sample_runtime sample_uuid4 wall5 building_file
           empty_state wall_state
           (Argument "ObjectPlacement" "ENTITY INSTANCE" (VEntity placement7))
           placement7).
  - vm_compute. reflexivity.
  - cbn. auto.
  - reflexivity.
  - reflexivity.
  - reflexivity.
  - cbn. discriminate.
Defined.

(** An entity that refers to an entity of its own identifier: the endpoint
    of the relationship is found in the node set, as the entity's own
    node. *)
Example self_reference_endpoint :
  let self5 :=
    Entity 5 "IfcWall" (isa_in ["IfcWall"])
      [Argument "Self" "ENTITY INSTANCE"
         (VEntity (Entity 5 "IfcWall" (isa_in ["IfcWall"])
                     [Argument "Name" "STRING" (VStr "w")] []))] [] in
  let s' := snd (extract self5 building_file) in
  map primarykey (nodes (graph s')) = [VStr "5"] /\
  map triple (relationships (graph s')) = [(VStr "5", "Self", VStr "5")] /\
  endpoints_in_nodes sample_runtime (graph s').
Proof.
  split; [vm_compute; reflexivity|]. split; [vm_compute; reflexivity|].
  intros r Hr. vm_compute in Hr. destruct Hr as [<-|[]].
  split; vm_compute; reflexivity.
Qed.

(** ** C2 *)

(** Extracting the project alone: the relationship to the owner history
    (#2) is in the graph, a node for #2 is not. *)
Lemma project_owner_counterexample :
  fst (extract project1 building_file) = Ok tt /\
  map primarykey (nodes (graph project_state)) = [VStr "1"] /\
  map triple (relationships (graph project_state)) =
    [(VStr "1", "OwnerHistory", VStr "2")] /\
  set_contains sample_runtime (built owner2 building_file 0)
    (nodes (graph project_state)) = false.
Proof. repeat split; vm_compute; reflexivity. Qed.

Lemma owner_history_rule_witness :
  forward_attribute sample_runtime sample_uuid4 (built wall5 building_file 0)
    wall5 building_file
    (Argument "OwnerHistory" "ENTITY INSTANCE" (VEntity owner9)) empty_state
  = (Ok tt, empty_state) /\
  forward_attribute sample_runtime sample_uuid4 (built project1 building_file 0)
    project1 building_file
    (Argument "OwnerHistory" "ENTITY INSTANCE" (VEntity owner2)) empty_state
  = (Ok tt,
     {| graph :=
          {| nodes := [];
             relationships :=
               [ {| start_node := built project1 building_file 0;
                    rel_type := "OwnerHistory";
                    end_node := built owner2 building_file 0 |} ] |};
        drawn := 0 |}).
Proof.
  split.
  - apply (owner_history_rule sample_runtime sample_uuid4
             (built wall5 building_file 0) wall5 building_file
             (Argument "OwnerHistory" "ENTITY INSTANCE" (VEntity owner9))
             owner9 empty_state);
      [reflexivity | reflexivity | reflexivity | cbn; discriminate].
  - apply (owner_history_rule sample_runtime sample_uuid4
             (built project1 building_file 0) project1 building_file
             (Argument "OwnerHistory" "ENTITY INSTANCE" (VEntity owner2))
             owner2 empty_state);
      reflexivity.
Defined.

(** ** C3 *)

(** The property model, walked and emitted: the relationship statement
    matches its child on the identity drawn for the inline value, and no
    node-creation statement carries that identity. *)
Lemma emission_endpoint_counterexample :
  fst property_log = Ok tt /\
  length (snd property_log) = 2%nat /\
  ~ endpoints_created (snd property_log).
Proof.
  split; [vm_compute; reflexivity|].
  split; [vm_compute; reflexivity|].
  intros Hall.
  assert (Hj : snd property_log !! 1%nat =
               Some (MatchCreate (VStr "IfcPropertySingleValue") (VStr "10")
                       (VStr "IfcLabel") (VStr "00000000-0000-4000-8000-0")
                       "NominalValue", "ifc-graph"))
    by (vm_compute; reflexivity).
  destruct (Hall _ _ _ _ _ _ _ Hj (VStr "00000000-0000-4000-8000-0")
              (or_intror eq_refl))
    as (i & label & n & d' & Hlt & Hi & Hid).
  destruct i as [|i]; [|lia].
  vm_compute in Hi. injection Hi as _ <- _.
  vm_compute in Hid. discriminate.
Qed.

Lemma emission_order_witness :
  (forall i j label n pl pid cl cid rt d d',
      snd property_log !! i = Some (CreateNode label n, d) ->
      snd property_log !! j = Some (MatchCreate pl pid cl cid rt, d') ->
      (i < j)%nat) /\
  (forall i label n d,
      snd property_log !! i = Some (CreateNode label n, d) ->
      In n (nodes property_graph) /\
      creates "ifc-graph" n (CreateNode label n, d)) /\
  (forall x,
      (forall n, In n (nodes property_graph) ->
                 dict_get "id" (items n) <> Some x) ->
      forall i label n d,
        snd property_log !! i = Some (CreateNode label n, d) ->
        dict_get "id" (items n) <> Some x) /\
  (forall j pl pid cl cid rt d,
      snd property_log !! j = Some (MatchCreate pl pid cl cid rt, d) ->
      (exists rel, In rel (relationships property_graph) /\
                   matches "ifc-graph" rel (MatchCreate pl pid cl cid rt, d)) /\
      (forall n, In n (nodes property_graph) ->
                 exists i q, (i < j)%nat /\ snd property_log !! i = Some q /\
                             creates "ifc-graph" n q)).
Proof.
  apply (emission_order accepting "ifc-graph" property_graph (fst property_log)).
  unfold property_log.
  destruct (write_graph_to_neo4j property_graph accepting "ifc-graph" []);
    reflexivity.
Defined.

(** ** C4 *)

(** Two records whose stored [id] attributes are [-1] and [-2]: CPython
    hashes both to [-2], so the nodes are equal and hash identically while
    their identities differ. *)
Lemma Node_identity_counterexample :
  (Node_eq sample_runtime (built record_a record_file 0)
     (built record_b record_file 0) = true /\
   Node_hash sample_runtime (built record_a record_file 0) =
   Node_hash sample_runtime (built record_b record_file 0)) /\
  primarykey (built record_a record_file 0) = VInt (-1) /\
  primarykey (built record_b record_file 0) = VInt (-2) /\
  primarykey (built record_a record_file 0) <>
  primarykey (built record_b record_file 0).
Proof.
  split; [split; vm_compute; reflexivity|].
  split; [vm_compute; reflexivity|].
  split; [vm_compute; reflexivity|].
  vm_compute. discriminate.
Qed.

Lemma Node_eq_by_hash_witness :
  Node_eq sample_runtime (built wall5 building_file 0)
    (add_label "Other" (built wall5 building_file 0)) = true /\
  Node_hash sample_runtime (built wall5 building_file 0) =
  Node_hash sample_runtime (add_label "Other" (built wall5 building_file 0)).
Proof.
  apply (Node_eq_by_hash sample_runtime (built wall5 building_file 0)
           (add_label "Other" (built wall5 building_file 0))).
  reflexivity.
Defined.

(** ** C5 *)

(** The inline value, built twice in a row with the same arguments: the
    first call draws a UUID, and the two nodes differ. *)
Lemma builder_repeat_counterexample :
  snd (create_pure_node_from_ifc_entity sample_uuid4 label0 property_file
         true 0) = 1%nat /\
  fst (create_pure_node_from_ifc_entity sample_uuid4 label0 property_file
         true 0) <>
  fst (create_pure_node_from_ifc_entity sample_uuid4 label0 property_file
         true 1).
Proof.
  split; [reflexivity|].
  intros Heq. apply (f_equal primarykey) in Heq. vm_compute in Heq.
  discriminate.
Qed.

Lemma builder_pure_up_to_uuid_witness :
  create_pure_node_from_ifc_entity sample_uuid4 wall5 building_file true 3 =
    (fst (create_pure_node_from_ifc_entity (fun _ => "") wall5 building_file
            true 0), 3%nat) /\
  snd (create_pure_node_from_ifc_entity sample_uuid4 label0 property_file
         true 0) = 1%nat /\
  fst (create_pure_node_from_ifc_entity sample_uuid4 label0 property_file
         true 0) =
  fst (create_pure_node_from_ifc_entity (fun _ => sample_uuid4 0) label0
         property_file true 7) /\
  primarykey (fst (create_pure_node_from_ifc_entity sample_uuid4 label0
                     property_file true 0)) <>
  primarykey (fst (create_pure_node_from_ifc_entity sample_uuid4 label0
                     property_file true 1)).
Proof.
  split; [|split; [|split]].
  - apply (proj1 (builder_pure_up_to_uuid wall5 building_file true)).
    cbn. discriminate.
  - apply (proj2 (builder_pure_up_to_uuid label0 property_file true)
             eq_refl sample_uuid4 sample_uuid4 0%nat 0%nat).
  - apply (proj2 (builder_pure_up_to_uuid label0 property_file true)
             eq_refl sample_uuid4 (fun _ => sample_uuid4 0) 0%nat 7%nat).
    reflexivity.
  - apply (proj2 (builder_pure_up_to_uuid label0 property_file true)
             eq_refl sample_uuid4 sample_uuid4 0%nat 1%nat).
    + intros a [<-|[]] _. cbn. discriminate.
    + intros Heq. apply sample_uuid4_inj in Heq. discriminate.
Defined.

(** ** C6 *)

(** An entity with identifier 0 and a stored attribute named [id], built
    twice: both nodes have the attribute's value as identity. *)
Lemma stored_id_not_fresh_counterexample :
  e_id tagged0 = 0 /\
  primarykey (fst (create_pure_node_from_ifc_entity sample_uuid4 tagged0
                     record_file true 0)) = VStr "T-1" /\
  primarykey (fst (create_pure_node_from_ifc_entity sample_uuid4 tagged0
                     record_file true 1)) = VStr "T-1".
Proof. repeat split; vm_compute; reflexivity. Qed.

Lemma fresh_identities_distinct_witness :
  e_id label0 = 0 /\
  primarykey (fst (create_pure_node_from_ifc_entity sample_uuid4 label0
                     property_file true 0)) <>
  primarykey (fst (create_pure_node_from_ifc_entity sample_uuid4 label0
                     property_file true 1)).
Proof.
  split; [reflexivity|].
  apply (fresh_identities_distinct sample_uuid4 label0 label0
           property_file property_file true true 0 1).
  - exact sample_uuid4_inj.
  - reflexivity.
  - reflexivity.
  - intros a [<-|[]] _. cbn. discriminate.
  - intros a [<-|[]] _. cbn. discriminate.
  - cbn. lia.
Defined.

(** ** C7 *)

(** The graph of the wall, merged again with a node of the wall's identity
    but other labels, and with a relationship of the same triple between
    other node values. *)
Lemma merge_idempotent_witness :
  merge sample_runtime (graph wall_state)
    (ONode (add_label "Other" (built wall5 building_file 0)))
  = (Ok tt, graph wall_state) /\
  merge sample_runtime (graph wall_state)
    (ORel {| start_node := add_label "Other" (built wall5 building_file 0);
             rel_type := "ObjectPlacement";
             end_node := built placement7 building_file 0 |})
  = (Ok tt, graph wall_state).
Proof.
  split.
  - apply (proj1 (merge_idempotent sample_runtime (graph wall_state))
             _ (built wall5 building_file 0)).
    + vm_compute. left. reflexivity.
    + reflexivity.
  - apply (proj2 (merge_idempotent sample_runtime (graph wall_state))
             _ {| start_node := built wall5 building_file 0;
                  rel_type := "ObjectPlacement";
                  end_node := built placement7 building_file 0 |}).
    + vm_compute. left. reflexivity.
    + reflexivity.
    + reflexivity.
    + reflexivity.
Defined.

(** Merging the same node, and the same relationship, twice into an empty
    graph leaves one of each. *)
Example merge_twice :
  let n := built wall5 building_file 0 in
  let r := {| start_node := n; rel_type := "ObjectPlacement";
              end_node := built placement7 building_file 0 |} in
  let g1 := snd (merge sample_runtime Graph_new (ONode n)) in
  let g2 := snd (merge sample_runtime g1 (ONode n)) in
  let g3 := snd (merge sample_runtime g2 (ORel r)) in
  let g4 := snd (merge sample_runtime g3 (ORel r)) in
  length (nodes g4) = 1%nat /\ length (relationships g4) = 1%nat.
Proof. vm_compute. auto. Qed.

(** ** C10 *)

Lemma stored_id_name_override_witness :
  (dict_get "id" (items (fst (create_pure_node_from_ifc_entity sample_uuid4
                                tagged0 record_file true 0)))
     = Some (VStr "T-1") /\
   primarykey (fst (create_pure_node_from_ifc_entity sample_uuid4 tagged0
                      record_file true 0)) = VStr "T-1") /\
  (dict_get "name" (items (fst (create_pure_node_from_ifc_entity sample_uuid4
                                  tagged0 record_file true 0)))
     = Some (VStr "Door") /\
   primarylabel (fst (create_pure_node_from_ifc_entity sample_uuid4 tagged0
                        record_file true 0)) = VStr "Door").
Proof.
  assert (Hnd : List.NoDup (map arg_name (e_args tagged0))).
  { cbn. repeat constructor; cbn; intuition discriminate. }
  split.
  - apply (proj1 (stored_id_name_override sample_uuid4 tagged0 record_file
                    true 0 "id" "STRING" (VStr "T-1") Hnd
                    (or_introl eq_refl) eq_refl)).
    reflexivity.
  - apply (proj2 (stored_id_name_override sample_uuid4 tagged0 record_file
                    true 0 "name" "STRING" (VStr "Door") Hnd
                    (or_intror (or_introl eq_refl)) eq_refl)).
    reflexivity.
Defined.

(** * Further properties of the builder *)

(** The keys of a node's dict, in insertion order. *)
Definition keys (n : Node) : list string := map fst (items n).

(** An argument whose kind the builder stores as a property. *)
Definition stored (a : argument) : bool :=
  negb (in_strings (arg_type a) attributes_type).

Lemma dict_set_keys (k : string) (v : value) (d : list (string * value)) :
  map fst (dict_set k v d) =
  if in_strings k (map fst d) then map fst d else (map fst d ++ [k])%list.
Proof.
  unfold in_strings. induction d as [|[k' v'] d IH]; cbn [dict_set map fst existsb app].
  - reflexivity.
  - rewrite (String.eqb_sym k k').
    destruct (String.eqb k' k); cbn [map fst orb]; [reflexivity|].
    rewrite IH. destruct (existsb (String.eqb k) (map fst d)); reflexivity.
Qed.

Lemma in_strings_In (s : string) (l : list string) :
  in_strings s l = true <-> In s l.
Proof.
  unfold in_strings. rewrite existsb_exists. split.
  - intros (x & Hin & Hx). apply String.eqb_eq in Hx. subst x. exact Hin.
  - intros Hin. exists s. split; [exact Hin | apply String.eqb_refl].
Qed.

Lemma dict_set_keys_In (k key : string) (v : value) (d : list (string * value)) :
  In key (map fst (dict_set k v d)) <-> In key (map fst d) \/ key = k.
Proof.
  rewrite dict_set_keys. destruct (in_strings k (map fst d)) eqn:E.
  - apply in_strings_In in E. split; [auto|]. intros [Hin| ->]; assumption.
  - rewrite in_app_iff. cbn [In]. intuition.
Qed.

Lemma dict_set_keys_NoDup (k : string) (v : value) (d : list (string * value)) :
  List.NoDup (map fst d) -> List.NoDup (map fst (dict_set k v d)).
Proof.
  intros Hnd. rewrite dict_set_keys.
  destruct (in_strings k (map fst d)) eqn:E; [exact Hnd|].
  apply Stdlib.Lists.List.NoDup_app; [exact Hnd | |].
  - repeat constructor. intros [].
  - intros x Hx [<-|[]].
    apply in_strings_In in Hx. congruence.
Qed.

Lemma dict_set_keys_head (k k1 k2 : string) (v : value)
    (d : list (string * value)) (rest : list string) :
  map fst d = k1 :: k2 :: rest ->
  exists rest', map fst (dict_set k v d) = k1 :: k2 :: rest'.
Proof.
  intros Hd. rewrite dict_set_keys, Hd.
  destruct (in_strings k (k1 :: k2 :: rest)); cbn [app]; eauto.
Qed.

Lemma store_attributes_keys (args : list argument) (n : Node) (k1 k2 : string)
    (rest : list string) :
  keys n = k1 :: k2 :: rest ->
  List.NoDup (keys n) ->
  (exists rest', keys (store_attributes args n) = k1 :: k2 :: rest') /\
  List.NoDup (keys (store_attributes args n)) /\
  (forall key,
      In key (keys (store_attributes args n)) <->
      In key (keys n) \/
      exists a, In a args /\ stored a = true /\ arg_name a = key).
Proof.
  revert n rest. induction args as [|a args IH]; intros n rest Hk Hnd;
    cbn [store_attributes].
  - split; [eauto|]. split; [exact Hnd|].
    intros key. split; [auto|]. intros [Hin|(a & [] & _)]. exact Hin.
  - fold (stored a). destruct (stored a) eqn:Ea.
    + destruct (dict_set_keys_head (arg_name a) k1 k2 (arg_value a) (items n)
                  rest Hk) as (rest1 & Hk1).
      destruct (IH (Node_setitem (arg_name a) (arg_value a) n) rest1 Hk1
                  (dict_set_keys_NoDup _ _ _ Hnd)) as (Hhead & Hnd' & Hin).
      split; [exact Hhead|]. split; [exact Hnd'|].
      intros key. rewrite Hin. unfold keys at 1.
      cbn [Node_setitem items]. rewrite dict_set_keys_In. split.
      * intros [[Hold| ->]|(b & Hb & Hs & Hn)]; eauto.
        -- right. exists a. cbn. auto.
        -- right. exists b. cbn. auto.
      * intros [Hold|(b & [<-|Hb] & Hs & Hn)]; eauto.
    + destruct (IH n rest Hk Hnd) as (Hhead & Hnd' & Hin).
      split; [exact Hhead|]. split; [exact Hnd'|].
      intros key. rewrite Hin. split.
      * intros [Hold|(b & Hb & Hs & Hn)]; eauto.
        right. exists b. cbn. auto.
      * intros [Hold|(b & [<-|Hb] & Hs & Hn)]; eauto. congruence.
Qed.

(** The dict of a built node starts with the keys [id] and [name], holds no
    key twice, and holds besides exactly the names of the arguments whose
    kind is stored: an entity reference, an aggregate of entity references
    or a derived attribute leaves no property. *)
Theorem builder_keys (uuid4 : nat -> string) (e : entity) (f : ifc_file)
    (h : bool) (k : nat) :
  (exists rest,
      keys (fst (create_pure_node_from_ifc_entity uuid4 e f h k)) =
      "id" :: "name" :: rest) /\
  List.NoDup (keys (fst (create_pure_node_from_ifc_entity uuid4 e f h k))) /\
  (forall key,
      In key (keys (fst (create_pure_node_from_ifc_entity uuid4 e f h k))) <->
      key = "id" \/ key = "name" \/
      exists a, In a (e_args e) /\ stored a = true /\ arg_name a = key).
Proof.
  assert (Hbase : forall n0,
             keys n0 = ["id"; "name"] ->
             (exists rest, keys (store_attributes (e_args e) n0) =
                           "id" :: "name" :: rest) /\
             List.NoDup (keys (store_attributes (e_args e) n0)) /\
             (forall key,
                 In key (keys (store_attributes (e_args e) n0)) <->
                 key = "id" \/ key = "name" \/
                 exists a, In a (e_args e) /\ stored a = true /\
                           arg_name a = key)).
  { intros n0 Hn0.
    assert (Hnd0 : List.NoDup (keys n0)).
    { rewrite Hn0. repeat constructor; cbn; intuition discriminate. }
    destruct (store_attributes_keys (e_args e) n0 "id" "name" [] Hn0 Hnd0)
      as (Hhead & Hnd & Hin).
    split; [exact Hhead|]. split; [exact Hnd|].
    intros key. rewrite Hin, Hn0. cbn [In]. intuition. }
  unfold create_pure_node_from_ifc_entity.
  destruct (e_id e =? 0); destruct h; cbn [negb fst keys items set_primarykey
    set_primarylabel]; apply Hbase; unfold keys;
    rewrite ?items_add_hierarchy_labels; reflexivity.
Qed.

Lemma stored_absent (key : string) (args : list argument) :
  (forall a, In a args -> stored a = true -> arg_name a <> key) ->
  last_stored key args = None.
Proof.
  intros Hno. apply last_stored_absent. intros a Hin Hty.
  apply Hno; [exact Hin|]. unfold stored. rewrite Hty. reflexivity.
Qed.

(** Identity stability. An entity with a non-zero identifier and no stored
    attribute named [id] gets the decimal form of its identifier as identity
    and as [id] entry, whatever the file, the flag and the moment of the
    call, and no UUID is drawn; two such entities get the same identity
    exactly when their identifiers are equal. *)
Theorem native_identity (uuid4 : nat -> string) (e1 e2 : entity)
    (f1 f2 : ifc_file) (h1 h2 : bool) (k1 k2 : nat) :
  e_id e1 <> 0 -> e_id e2 <> 0 ->
  (forall a, In a (e_args e1) -> stored a = true -> arg_name a <> "id") ->
  (forall a, In a (e_args e2) -> stored a = true -> arg_name a <> "id") ->
  primarykey (fst (create_pure_node_from_ifc_entity uuid4 e1 f1 h1 k1)) =
    VStr (pretty (e_id e1)) /\
  dict_get "id"
    (items (fst (create_pure_node_from_ifc_entity uuid4 e1 f1 h1 k1))) =
    Some (VStr (pretty (e_id e1))) /\
  snd (create_pure_node_from_ifc_entity uuid4 e1 f1 h1 k1) = k1 /\
  (primarykey (fst (create_pure_node_from_ifc_entity uuid4 e1 f1 h1 k1)) =
   primarykey (fst (create_pure_node_from_ifc_entity uuid4 e2 f2 h2 k2)) <->
   e_id e1 = e_id e2).
Proof.
  intros Hid1 Hid2 Hno1 Hno2.
  rewrite builder_items_get, builder_drawn, !builder_primarykey.
  rewrite (stored_absent _ _ Hno1), (stored_absent _ _ Hno2).
  unfold initial_id.
  apply Z.eqb_neq in Hid1, Hid2. rewrite Hid1, Hid2. cbn.
  repeat split; try reflexivity.
  - intros Heq. injection Heq as Heq. exact (pretty_Z_inj _ _ Heq).
  - intros ->. reflexivity.
Qed.

(** Every argument of a stored kind is a property of the built node, under
    its name and with its value, when the argument names of the entity are
    pairwise distinct. *)
Theorem builder_property_values (uuid4 : nat -> string) (e : entity)
    (f : ifc_file) (h : bool) (k : nat) (a : argument) :
  List.NoDup (map arg_name (e_args e)) ->
  In a (e_args e) ->
  stored a = true ->
  dict_get (arg_name a)
    (items (fst (create_pure_node_from_ifc_entity uuid4 e f h k))) =
  Some (arg_value a).
Proof.
  intros Hnd Hin Hst. destruct a as [nm ty v]. cbn [arg_name arg_value].
  rewrite builder_items_get.
  rewrite (last_stored_unique _ nm ty v Hnd Hin); [reflexivity|].
  unfold stored in Hst. cbn [arg_type] in Hst.
  destruct (in_strings ty attributes_type); [discriminate | reflexivity].
Qed.

(** The type tag is the primary label and the [name] entry of the built
    node when the entity has no stored attribute named [name]. *)
Theorem builder_primary_label (uuid4 : nat -> string) (e : entity)
    (f : ifc_file) (h : bool) (k : nat) :
  (forall a, In a (e_args e) -> stored a = true -> arg_name a <> "name") ->
  primarylabel (fst (create_pure_node_from_ifc_entity uuid4 e f h k)) =
    VStr (is_a e) /\
  dict_get "name"
    (items (fst (create_pure_node_from_ifc_entity uuid4 e f h k))) =
    Some (VStr (is_a e)).
Proof.
  intros Hno. rewrite builder_items_get, builder_primarylabel.
  rewrite (stored_absent _ _ Hno). split; reflexivity.
Qed.

(** * Node.__str__ *)

(** One entry as [Node.__str__] writes it, without the separator. *)
Definition item_str (rt : runtime) (kv : string * value) : string :=
  let '(key, v) := kv in
  if is_number v
  then key +:+ ": " +:+ py_str rt v
  else key +:+ ": " +:+ dquote +:+ py_str rt v +:+ dquote.

(** [sep.join(l)] *)
Fixpoint join (sep : string) (l : list string) : string :=
  match l with
  | [] => EmptyString
  | [x] => x
  | x :: l' => x +:+ sep +:+ join sep l'
  end.

Lemma append_cons (c : Ascii.ascii) (s t : string) :
  String c s +:+ t = String c (s +:+ t).
Proof. reflexivity. Qed.

Lemma append_nil_r (s : string) : s +:+ EmptyString = s.
Proof.
  induction s as [|c s IH]; [reflexivity|].
  rewrite append_cons, IH. reflexivity.
Qed.

Lemma append_assoc (s t u : string) : (s +:+ t) +:+ u = s +:+ (t +:+ u).
Proof.
  induction s as [|c s IH]; [reflexivity|].
  rewrite !append_cons, IH. reflexivity.
Qed.

Lemma length_append (s t : string) :
  String.length (s +:+ t) = (String.length s + String.length t)%nat.
Proof.
  induction s as [|c s IH]; [reflexivity|].
  rewrite append_cons. cbn [String.length]. rewrite IH. reflexivity.
Qed.

Lemma substring_prefix (s t : string) :
  String.substring 0 (String.length s) (s +:+ t) = s.
Proof.
  induction s as [|c s IH].
  - destruct t; reflexivity.
  - rewrite append_cons. cbn [String.length String.substring].
    rewrite IH. reflexivity.
Qed.

Lemma items_str_join (rt : runtime) (d : list (string * value)) :
  d <> [] ->
  items_str rt d = join ", " (map (item_str rt) d) +:+ ", ".
Proof.
  induction d as [|[key v] d IH]; [congruence|]. intros _.
  cbn [items_str map]. destruct d as [|kv d].
  - cbn [items_str map join item_str]. rewrite append_nil_r.
    destruct (is_number v); rewrite ?append_assoc; reflexivity.
  - rewrite IH by discriminate.
    change (join ", " (item_str rt (key, v) :: map (item_str rt) (kv :: d)))
      with (item_str rt (key, v) +:+ ", "
            +:+ join ", " (map (item_str rt) (kv :: d))).
    cbn [item_str]. destruct (is_number v); rewrite ?append_assoc; reflexivity.
Qed.

(** [Node.__str__] writes an empty dict as a pair of braces, and otherwise
    the entries between braces, separated by a comma and a space: cutting
    the last two characters removes the trailing separator and nothing
    else. The values written bare are the booleans, the integers and the
    floating-point numbers; every other value is written between double
    quotes. *)
Theorem Node_str_entries (rt : runtime) (n : Node) :
  Node_str rt n =
    match items n with
    | [] => "{}"
    | _ => "{" +:+ join ", " (map (item_str rt) (items n)) +:+ "}"
    end /\
  (forall key v,
      item_str rt (key, v) =
      if is_number v
      then key +:+ ": " +:+ py_str rt v
      else key +:+ ": " +:+ dquote +:+ py_str rt v +:+ dquote) /\
  (forall v,
      is_number v = true <->
      (exists b, v = VBool b) \/ (exists z, v = VInt z) \/
      (exists bits, v = VFloat bits)).
Proof.
  split; [|split].
  - unfold Node_str. destruct (items n) as [|kv d] eqn:E; [reflexivity|].
    cbv zeta. rewrite items_str_join by discriminate.
    set (body := join ", " (map (item_str rt) (kv :: d))).
    rewrite <- (append_assoc "{" body ", ").
    rewrite length_append. cbn [String.length].
    replace (String.length ("{" +:+ body) + 2 - 2)%nat
      with (String.length ("{" +:+ body)) by lia.
    rewrite substring_prefix. rewrite append_assoc. reflexivity.
  - intros key v. reflexivity.
  - intros v. split.
    + destruct v; cbn; intros Hv; try discriminate; eauto.
    + intros [[b ->]|[[z ->]|[bits ->]]]; reflexivity.
Qed.

(** * Further properties of the extractor *)

(** Build the node of [sub] and merge the relationship from [node] to it:
    the three lines the extractor repeats for a single reference, for an
    element of an aggregate and for an inverse reference. *)
Definition link (rt : runtime) (uuid4 : nat -> string) (node : Node)
    (nm : string) (sub : entity) (f : ifc_file) : M state unit :=
  bind (build uuid4 sub f) (fun sub_node =>
    graph_merge rt (ORel {| start_node := node; rel_type := nm;
                            end_node := sub_node |})).

(** The state after the extractor has merged the entity's own node. *)
Definition after_own_node (rt : runtime) (uuid4 : nat -> string) (e : entity)
    (f : ifc_file) (s : state) : state :=
  {| graph :=
       {| nodes :=
            set_add (Node_hash rt) (Node_eq rt)
              (fst (create_pure_node_from_ifc_entity uuid4 e f true (drawn s)))
              (nodes (graph s));
          relationships := relationships (graph s) |};
     drawn := snd (create_pure_node_from_ifc_entity uuid4 e f true (drawn s)) |}.

(** The two loops of the extractor. *)
Definition extractor_loops (rt : runtime) (uuid4 : nat -> string) (node : Node)
    (e : entity) (f : ifc_file) : M state unit :=
  bind (for_each (e_args e) (forward_attribute rt uuid4 node e f))
       (fun _ => for_each (e_inverses e) (inverse_attribute rt uuid4 node f)).

(** The body of the walker's loop. *)
Definition visit (rt : runtime) (uuid4 : nat -> string) (f : ifc_file)
    (entity_id : Z) : M state unit :=
  bind (file_by_id f entity_id) (fun entity =>
    create_graph_from_ifc_entity_all rt uuid4 entity f).

Section Steps.

Variable rt : runtime.
Variable uuid4 : nat -> string.

Lemma link_run (node : Node) (nm : string) (sub : entity) (f : ifc_file)
    (s : state) :
  link rt uuid4 node nm sub f s =
  (Ok tt,
   {| graph :=
        {| nodes := nodes (graph s);
           relationships :=
             set_add (Relationship_hash rt) (Relationship_eq rt)
               {| start_node := node; rel_type := nm;
                  end_node :=
                    fst (create_pure_node_from_ifc_entity uuid4 sub f true
                           (drawn s)) |}
               (relationships (graph s)) |};
      drawn :=
        snd (create_pure_node_from_ifc_entity uuid4 sub f true (drawn s)) |}).
Proof. unfold link, bind. rewrite build_run. reflexivity. Qed.

Lemma extractor_unfold (e : entity) (f : ifc_file) (s : state) :
  create_graph_from_ifc_entity_all rt uuid4 e f s =
  extractor_loops rt uuid4
    (fst (create_pure_node_from_ifc_entity uuid4 e f true (drawn s))) e f
    (after_own_node rt uuid4 e f s).
Proof.
  unfold create_graph_from_ifc_entity_all.
  unfold bind at 1. rewrite build_run.
  unfold bind at 1. reflexivity.
Qed.

Lemma visit_run (f : ifc_file) (i : Z) (s : state) :
  visit rt uuid4 f i s =
  match by_id f i with
  | Some e => create_graph_from_ifc_entity_all rt uuid4 e f s
  | None => (Raise RuntimeError, s)
  end.
Proof. unfold visit, bind, file_by_id. destruct (by_id f i); reflexivity. Qed.

Lemma create_full_graph_visits (f : ifc_file) :
  create_full_graph rt uuid4 f = for_each (entity_names f) (visit rt uuid4 f).
Proof. reflexivity. Qed.

(** A relation between states that every build-and-merge from [node] keeps
    is kept by both loops of the extractor. *)
Section Kept.

Context (R : state -> state -> Prop).
Hypothesis R_refl : forall s, R s s.
Hypothesis R_trans : forall s1 s2 s3, R s1 s2 -> R s2 s3 -> R s1 s3.
Variable node : Node.
Variable f : ifc_file.
Hypothesis R_link : forall nm sub, keeps R (link rt uuid4 node nm sub f).

Lemma kept_as_entity (v : value) (k : entity -> M state unit) :
  (forall sub, keeps R (k sub)) -> keeps R (bind (as_entity v) k).
Proof.
  intros Hk. apply keeps_bind; [exact R_trans | | exact Hk].
  destruct v; first [apply keeps_ret | apply keeps_raise]; exact R_refl.
Qed.

Lemma kept_forward_attribute (e : entity) (a : argument) :
  keeps R (forward_attribute rt uuid4 node e f a).
Proof.
  unfold forward_attribute.
  destruct (truthy rt (arg_value a)); [|apply keeps_ret, R_refl].
  destruct (String.eqb (arg_type a) "ENTITY INSTANCE").
  - apply kept_as_entity. intros referenced.
    destruct (_ && _); [apply keeps_ret, R_refl | apply R_link].
  - destruct (String.eqb (arg_type a) "AGGREGATE OF ENTITY INSTANCE");
      [|apply keeps_ret, R_refl].
    apply keeps_bind; [exact R_trans | |].
    + unfold iterate. destruct (arg_value a);
        first [apply keeps_ret | apply keeps_raise]; exact R_refl.
    + intros elements. apply keeps_for_each; [exact R_refl | exact R_trans |].
      intros v. apply kept_as_entity. intros sub. apply R_link.
Qed.

Lemma kept_inverse_attribute (inv : string * list Z) :
  keeps R (inverse_attribute rt uuid4 node f inv).
Proof.
  destruct inv as [rel_name ids]. unfold inverse_attribute.
  destruct ids as [|i ids]; [apply keeps_ret, R_refl|].
  apply keeps_for_each; [exact R_refl | exact R_trans |].
  intros wrapped_id. apply keeps_bind; [exact R_trans | |].
  - unfold file_by_id. destruct (by_id f wrapped_id);
      first [apply keeps_ret | apply keeps_raise]; exact R_refl.
  - intros rel_entity. apply R_link.
Qed.

Lemma kept_extractor_loops (e : entity) :
  keeps R (extractor_loops rt uuid4 node e f).
Proof.
  unfold extractor_loops. apply keeps_bind; [exact R_trans | |].
  - apply keeps_for_each; [exact R_refl | exact R_trans |].
    intros a. apply kept_forward_attribute.
  - intros _. apply keeps_for_each; [exact R_refl | exact R_trans |].
    intros inv. apply kept_inverse_attribute.
Qed.

End Kept.

End Steps.

Lemma set_add_inv {A : Type} (hash : A -> Z) (eq : A -> A -> bool)
    (x y : A) (s : list A) :
  In y (set_add hash eq x s) -> In y s \/ y = x.
Proof.
  unfold set_add. destruct (existsb _ s); [auto|].
  rewrite in_app_iff. cbn [In]. intuition.
Qed.

Lemma set_add_distinct {A : Type} (hash : A -> Z) (eq : A -> A -> bool)
    (x : A) (s : list A) :
  (forall y, hash y = hash x -> eq y x = true) ->
  List.NoDup (map hash s) -> List.NoDup (map hash (set_add hash eq x s)).
Proof.
  intros Heq Hnd. unfold set_add.
  destruct (existsb _ s) eqn:E; [exact Hnd|].
  rewrite map_app. apply Stdlib.Lists.List.NoDup_app; [exact Hnd | |].
  - repeat constructor. intros [].
  - intros h Hh [<-|[]].
    apply in_map_iff in Hh as (y & Hy & Hin).
    assert (existsb (fun y => (hash y =? hash x) && eq y x) s = true) as E'.
    { apply existsb_exists. exists y. split; [exact Hin|].
      rewrite Hy, Z.eqb_refl, (Heq y Hy). reflexivity. }
    congruence.
Qed.

Section Accumulation.

Variable rt : runtime.
Variable uuid4 : nat -> string.

(** ** What the extractor adds *)

(** Relationships of [s'] that are not in [s] start at [node] and end at a
    node built from the file with the hierarchy labels. *)
Definition sourced (node : Node) (f : ifc_file) (s s' : state) : Prop :=
  forall r, In r (relationships (graph s')) ->
            In r (relationships (graph s)) \/
            (start_node r = node /\
             exists sub k,
               end_node r =
               fst (create_pure_node_from_ifc_entity uuid4 sub f true k)).

Lemma sourced_refl (node : Node) (f : ifc_file) (s : state) :
  sourced node f s s.
Proof. intros r Hr. left. exact Hr. Qed.

Lemma sourced_trans (node : Node) (f : ifc_file) (s1 s2 s3 : state) :
  sourced node f s1 s2 -> sourced node f s2 s3 -> sourced node f s1 s3.
Proof.
  intros H12 H23 r Hr. destruct (H23 r Hr) as [Hr2|Hnew]; [|right; exact Hnew].
  exact (H12 r Hr2).
Qed.

Lemma sourced_link (node : Node) (f : ifc_file) (nm : string) (sub : entity) :
  keeps (sourced node f) (link rt uuid4 node nm sub f).
Proof.
  intros s r. rewrite link_run. cbn [snd graph relationships].
  intros Hr. apply set_add_inv in Hr as [Hr| ->]; [left; exact Hr|].
  right. cbn. eauto.
Qed.

(** Whatever its outcome, the extractor adds only relationships that start
    at the node of the entity it is called on and end at a node it built:
    it never links two other entities. *)
Theorem extractor_relationships_start_at_entity (e : entity) (f : ifc_file)
    (s : state) (r : Relationship) :
  In r (relationships
          (graph (snd (create_graph_from_ifc_entity_all rt uuid4 e f s)))) ->
  In r (relationships (graph s)) \/
  (start_node r =
     fst (create_pure_node_from_ifc_entity uuid4 e f true (drawn s)) /\
   exists sub k,
     end_node r = fst (create_pure_node_from_ifc_entity uuid4 sub f true k)).
Proof.
  rewrite extractor_unfold.
  set (node := fst (create_pure_node_from_ifc_entity uuid4 e f true (drawn s))).
  intros Hr.
  exact (kept_extractor_loops rt uuid4 (sourced node f)
           (sourced_refl node f) (sourced_trans node f) node f
           (sourced_link node f) e (after_own_node rt uuid4 e f s) r Hr).
Qed.

(** ** Nodes and relationships are only added *)

Definition extends (s s' : state) : Prop :=
  (forall n, In n (nodes (graph s)) -> In n (nodes (graph s'))) /\
  (forall r, In r (relationships (graph s)) ->
             In r (relationships (graph s'))).

Lemma extends_refl (s : state) : extends s s.
Proof. split; auto. Qed.

Lemma extends_trans (s1 s2 s3 : state) :
  extends s1 s2 -> extends s2 s3 -> extends s1 s3.
Proof. intros [Hn1 Hr1] [Hn2 Hr2]. split; auto. Qed.

Lemma extends_link (node : Node) (f : ifc_file) (nm : string) (sub : entity) :
  keeps extends (link rt uuid4 node nm sub f).
Proof.
  intros s. rewrite link_run. split; cbn; [auto|].
  intros r Hr. apply set_add_incl. exact Hr.
Qed.

Lemma extends_extractor (e : entity) (f : ifc_file) :
  keeps extends (create_graph_from_ifc_entity_all rt uuid4 e f).
Proof.
  intros s. rewrite extractor_unfold.
  apply (extends_trans s (after_own_node rt uuid4 e f s)).
  - split; cbn; [|auto]. intros n Hn. apply set_add_incl. exact Hn.
  - apply kept_extractor_loops;
      [exact extends_refl | exact extends_trans | apply extends_link].
Qed.

Lemma extends_visit (f : ifc_file) (i : Z) : keeps extends (visit rt uuid4 f i).
Proof.
  intros s. rewrite visit_run. destruct (by_id f i).
  - apply extends_extractor.
  - apply extends_refl.
Qed.

(** The walker, whatever its outcome, removes nothing from the graph, and
    every node it adds is the built node of an entity whose identifier the
    file lists: an entity that is only referred to, such as a value written
    inline, never gets a node. *)
Theorem walker_adds_listed_entities (f : ifc_file) (s : state) :
  extends s (snd (create_full_graph rt uuid4 f s)) /\
  forall n,
    In n (nodes (graph (snd (create_full_graph rt uuid4 f s)))) ->
    In n (nodes (graph s)) \/
    exists i e k,
      In i (entity_names f) /\ by_id f i = Some e /\
      n = fst (create_pure_node_from_ifc_entity uuid4 e f true k).
Proof.
  split.
  - apply (keeps_for_each extends extends_refl extends_trans).
    apply extends_visit.
  - rewrite create_full_graph_visits.
    generalize (entity_names f) as l. intros l. revert s.
    induction l as [|i l IH]; intros s n; cbn [for_each].
    + cbn. auto.
    + unfold bind. rewrite visit_run.
      destruct (by_id f i) as [e|] eqn:Ei.
      * pose proof (extractor_nodes rt uuid4 e f s) as Hnodes.
        destruct (create_graph_from_ifc_entity_all rt uuid4 e f s)
          as [[[]|x] s1]; cbn [snd] in Hnodes.
        -- intros Hn. destruct (IH s1 n Hn) as [Hn1|(j & e' & k & Hj & He & ->)].
           ++ rewrite Hnodes in Hn1.
              apply set_add_inv in Hn1 as [Hn1| ->]; [left; exact Hn1|].
              right. exists i, e, (drawn s). cbn. auto.
           ++ right. exists j, e', k. cbn. auto.
        -- cbn [snd]. rewrite Hnodes. intros Hn.
           apply set_add_inv in Hn as [Hn| ->]; [left; exact Hn|].
           right. exists i, e, (drawn s). cbn. auto.
      * cbn. auto.
Qed.

(** When the walker returns, every identifier the file lists resolves to an
    entity, and the node set holds a node equal to the node built for it. *)
Theorem walker_covers_listed_entities (f : ifc_file) (s s' : state) (i : Z) :
  create_full_graph rt uuid4 f s = (Ok tt, s') ->
  In i (entity_names f) ->
  exists e n k,
    by_id f i = Some e /\ In n (nodes (graph s')) /\
    Node_eq rt n (fst (create_pure_node_from_ifc_entity uuid4 e f true k))
    = true.
Proof.
  intros Hrun Hin.
  destruct (for_each_reaches extends extends_refl extends_trans
              (entity_names f) (visit rt uuid4 f) i s s'
              (extends_visit f) Hin Hrun)
    as (s1 & s2 & _ & Hstep & [Hnodes _]).
  rewrite visit_run in Hstep. destruct (by_id f i) as [e|]; [|discriminate].
  pose proof (extractor_nodes rt uuid4 e f s1) as Hn.
  rewrite Hstep in Hn. cbn [snd] in Hn.
  destruct (set_add_holds (Node_hash rt) (Node_eq rt)
              (fst (create_pure_node_from_ifc_entity uuid4 e f true (drawn s1)))
              (nodes (graph s1)) (Node_eq_refl rt))
    as (n & Hin_n & _ & Heq).
  exists e, n, (drawn s1). split; [reflexivity|]. split; [|exact Heq].
  apply Hnodes. rewrite Hn. exact Hin_n.
Qed.

End Accumulation.

(** * Invariants of the accumulated graph *)

(** No two nodes and no two relationships of the graph have the same hash,
    so none are equal under [__eq__]: the lists are sets. *)
Definition unique_graph (rt : runtime) (g : Graph) : Prop :=
  List.NoDup (map (Node_hash rt) (nodes g)) /\
  List.NoDup (map (Relationship_hash rt) (relationships g)).

(** A node that has the two entries the emitter reads. *)
Definition keyed (n : Node) : Prop :=
  is_Some (dict_get "name" (items n)) /\ is_Some (dict_get "id" (items n)).

(** Every node of the graph and every endpoint of every relationship has
    them. *)
Definition well_keyed (g : Graph) : Prop :=
  Forall keyed (nodes g) /\
  Forall (fun r => keyed (start_node r) /\ keyed (end_node r))
    (relationships g).

(** The statements the emitter issues for a node and for a relationship
    whose entries are present. *)
Definition create_statement (database : string) (n : Node) : query * string :=
  (CreateNode (default VNone (dict_get "name" (items n))) n, database).

Definition match_statement (database : string) (r : Relationship)
  : query * string :=
  (MatchCreate (default VNone (dict_get "name" (items (start_node r))))
     (default VNone (dict_get "id" (items (start_node r))))
     (default VNone (dict_get "name" (items (end_node r))))
     (default VNone (dict_get "id" (items (end_node r))))
     (rel_type r), database).

Lemma set_add_Forall {A : Type} (hash : A -> Z) (eq : A -> A -> bool)
    (P : A -> Prop) (x : A) (s : list A) :
  Forall P s -> P x -> Forall P (set_add hash eq x s).
Proof.
  intros Hs Hx. unfold set_add. destruct (existsb _ s); [exact Hs|].
  apply Forall_app. split; [exact Hs|]. constructor; [exact Hx | constructor].
Qed.

Lemma built_keyed (uuid4 : nat -> string) (e : entity) (f : ifc_file)
    (h : bool) (k : nat) :
  keyed (fst (create_pure_node_from_ifc_entity uuid4 e f h k)).
Proof.
  split; rewrite builder_items_get.
  - destruct (last_stored "name" (e_args e)); cbn; eauto.
  - destruct (last_stored "id" (e_args e)); cbn; eauto.
Qed.

Section Invariants.

Variable rt : runtime.
Variable uuid4 : nat -> string.

Definition preserves (I : Graph -> Prop) (s s' : state) : Prop :=
  I (graph s) -> I (graph s').

Lemma preserves_refl (I : Graph -> Prop) (s : state) : preserves I s s.
Proof. intros Hs. exact Hs. Qed.

Lemma preserves_trans (I : Graph -> Prop) (s1 s2 s3 : state) :
  preserves I s1 s2 -> preserves I s2 s3 -> preserves I s1 s3.
Proof. intros H12 H23 Hs. apply H23, H12, Hs. Qed.

(** An invariant that merging the own node and every build-and-merge keep
    is kept by the walker. *)
Lemma walker_preserves (I : Graph -> Prop) (f : ifc_file) :
  (forall e s, preserves I s (after_own_node rt uuid4 e f s)) ->
  (forall e k nm sub,
      keeps (preserves I)
        (link rt uuid4
           (fst (create_pure_node_from_ifc_entity uuid4 e f true k)) nm sub f)) ->
  keeps (preserves I) (create_full_graph rt uuid4 f).
Proof.
  intros Hown Hlink. rewrite create_full_graph_visits.
  apply keeps_for_each; [apply preserves_refl | apply preserves_trans |].
  intros i s. rewrite visit_run.
  destruct (by_id f i) as [e|]; [|apply preserves_refl].
  rewrite extractor_unfold.
  apply (preserves_trans I s (after_own_node rt uuid4 e f s)); [apply Hown|].
  apply kept_extractor_loops;
    [apply preserves_refl | apply preserves_trans | apply Hlink].
Qed.

Lemma Node_set_add_unique (n : Node) (ns : list Node) :
  List.NoDup (map (Node_hash rt) ns) ->
  List.NoDup (map (Node_hash rt) (set_add (Node_hash rt) (Node_eq rt) n ns)).
Proof.
  apply set_add_distinct. intros y Hy. unfold Node_eq. rewrite Hy.
  apply Z.eqb_refl.
Qed.

Lemma Relationship_set_add_unique (r : Relationship) (rs : list Relationship) :
  List.NoDup (map (Relationship_hash rt) rs) ->
  List.NoDup (map (Relationship_hash rt)
                (set_add (Relationship_hash rt) (Relationship_eq rt) r rs)).
Proof.
  apply set_add_distinct. intros y Hy. unfold Relationship_eq. rewrite Hy.
  apply Z.eqb_refl.
Qed.

(** Merging into a graph without duplicates gives a graph without
    duplicates, and so does walking a file, whatever the outcome and however
    often an entity is met: the node and relationship lists of a graph
    grown from the empty graph are sets under [__eq__]. *)
Theorem accumulation_keeps_unique (g : Graph) (x : pyobj) (f : ifc_file)
    (s : state) :
  unique_graph rt Graph_new /\
  (unique_graph rt g -> unique_graph rt (snd (merge rt g x))) /\
  (unique_graph rt (graph s) ->
   unique_graph rt (graph (snd (create_full_graph rt uuid4 f s)))).
Proof.
  split; [split; constructor|]. split.
  - intros [Hn Hr]. destruct x as [n|r|v]; cbn [merge snd]; split; cbn;
      auto using Node_set_add_unique, Relationship_set_add_unique.
  - apply (walker_preserves (unique_graph rt)).
    + intros e s0 [Hn Hr]. split; cbn; [|exact Hr].
      apply Node_set_add_unique. exact Hn.
    + intros e k nm sub s0 [Hn Hr]. rewrite link_run. split; cbn; [exact Hn|].
      apply Relationship_set_add_unique. exact Hr.
Qed.

(** Walking a file keeps every node and every relationship endpoint
    equipped with the entries [name] and [id], whatever the outcome. *)
Lemma walker_keeps_well_keyed (f : ifc_file) (s : state) :
  well_keyed (graph s) ->
  well_keyed (graph (snd (create_full_graph rt uuid4 f s))).
Proof.
  apply (walker_preserves well_keyed).
  - intros e s0 [Hn Hr]. split; cbn; [|exact Hr].
    apply set_add_Forall; [exact Hn | apply built_keyed].
  - intros e k nm sub s0 [Hn Hr]. rewrite link_run. split; cbn; [exact Hn|].
    apply set_add_Forall; [exact Hr|]. cbn. split; apply built_keyed.
Qed.

End Invariants.

(** * Further properties of the emitter *)

(** An outcome that is not a missing key: the emitter returned, or the
    driver raised. *)
Definition returned_or_driver_error (r : res unit) : Prop :=
  r = Ok tt \/ exists msg, r = Raise (DriverError msg).

Lemma for_each_outcome {S A : Type} (l : list A) (body : A -> M S unit) :
  (forall x, In x l -> forall s, returned_or_driver_error (fst (body x s))) ->
  forall s, returned_or_driver_error (fst (for_each l body s)).
Proof.
  induction l as [|x l IH]; intros Hbody s; cbn [for_each].
  - left. reflexivity.
  - unfold bind. pose proof (Hbody x (or_introl eq_refl) s) as Hx.
    destruct (body x s) as [[[]|e] s1]; cbn [fst] in *.
    + apply IH. intros y Hy. apply Hbody. right. exact Hy.
    + exact Hx.
Qed.

Section EmitterOutcome.

Variable driver : Driver.
Variable database : string.

Lemma emit_nodes_accepted (ns : list Node) (log : sink) :
  (forall l q, driver l q = None) ->
  Forall (fun n => is_Some (dict_get "name" (items n))) ns ->
  for_each ns (emit_node driver database) log =
  (Ok tt, (log ++ map (create_statement database) ns)%list).
Proof.
  intros Hacc Hns. revert log.
  induction Hns as [|n ns [label Hn] _ IH]; intros log.
  - cbn. rewrite app_nil_r. reflexivity.
  - assert (Hc : create_statement database n = (CreateNode label n, database))
      by (unfold create_statement; rewrite Hn; reflexivity).
    cbn [for_each map]. unfold bind. rewrite emit_node_run, Hn.
    unfold execute_query. rewrite Hacc, IH, Hc, <- app_assoc. reflexivity.
Qed.

Lemma emit_relationships_accepted (rs : list Relationship) (log : sink) :
  (forall l q, driver l q = None) ->
  Forall (fun r => keyed (start_node r) /\ keyed (end_node r)) rs ->
  for_each rs (emit_relationship driver database) log =
  (Ok tt, (log ++ map (match_statement database) rs)%list).
Proof.
  intros Hacc Hrs. revert log.
  induction Hrs as [|r rs [[[pl Hpl] [pid Hpid]] [[cl Hcl] [cid Hcid]]] _ IH];
    intros log.
  - cbn. rewrite app_nil_r. reflexivity.
  - cbn [for_each]. unfold bind at 1.
    assert (emit_relationship driver database r log =
            (Ok tt, (log ++ [match_statement database r])%list)) as ->.
    { unfold emit_relationship, bind, getitem, Node_getitem, match_statement,
        execute_query.
      rewrite Hpl, Hpid, Hcl, Hcid. cbn. rewrite Hacc. reflexivity. }
    rewrite IH, <- app_assoc. reflexivity.
Qed.

Lemma emit_node_outcome (n : Node) (log : sink) :
  is_Some (dict_get "name" (items n)) ->
  returned_or_driver_error (fst (emit_node driver database n log)).
Proof.
  intros [label Hn]. rewrite emit_node_run, Hn.
  destruct (execute_query_run driver database (CreateNode label n) log)
    as [->|[msg ->]]; [left | right; exists msg]; reflexivity.
Qed.

Lemma emit_relationship_outcome (r : Relationship) (log : sink) :
  keyed (start_node r) -> keyed (end_node r) ->
  returned_or_driver_error (fst (emit_relationship driver database r log)).
Proof.
  intros [[pl Hpl] [pid Hpid]] [[cl Hcl] [cid Hcid]].
  unfold emit_relationship, bind, getitem, Node_getitem.
  rewrite Hpl, Hpid, Hcl, Hcid.
  destruct (execute_query_run driver database
              (MatchCreate pl pid cl cid (rel_type r)) log)
    as [->|[msg ->]]; [left | right; exists msg]; reflexivity.
Qed.

Lemma emission_outcome (g : Graph) :
  well_keyed g ->
  returned_or_driver_error (fst (write_graph_to_neo4j g driver database [])).
Proof.
  intros [Hn Hr]. unfold write_graph_to_neo4j, bind.
  pose proof (for_each_outcome (nodes g) (emit_node driver database)) as Hnodes.
  specialize (Hnodes (fun n Hin s => emit_node_outcome n s
                        (proj1 (proj1 (Stdlib.Lists.List.Forall_forall _ _) Hn n Hin)))
                     []).
  destruct (for_each (nodes g) (emit_node driver database) [])
    as [[[]|e] l1]; cbn [fst] in *; [|exact Hnodes].
  apply for_each_outcome. intros r Hin s.
  destruct (proj1 (Stdlib.Lists.List.Forall_forall _ _) Hr r Hin) as [Hs He].
  apply emit_relationship_outcome; assumption.
Qed.

(** On a graph whose nodes and relationship endpoints have the entries
    [name] and [id], and with a driver that has every statement executed,
    the emitter returns normally, and the sink has executed exactly one
    creation statement per node and one relationship statement per
    relationship, all on the given database. *)
Theorem emission_complete (g : Graph) :
  well_keyed g ->
  (forall l q, driver l q = None) ->
  exists log,
    write_graph_to_neo4j g driver database [] = (Ok tt, log) /\
    Permutation log
      (map (create_statement database) (nodes g)
       ++ map (match_statement database) (relationships g))%list /\
    length log = (length (nodes g) + length (relationships g))%nat /\
    Forall (fun q => snd q = database) log.
Proof.
  intros [Hn Hr] Hacc. eexists. split.
  - unfold write_graph_to_neo4j, bind.
    rewrite emit_nodes_accepted; [|exact Hacc|].
    + rewrite emit_relationships_accepted by assumption. reflexivity.
    + eapply Forall_impl; [exact Hn|]. intros n [Hname _]. exact Hname.
  - cbn [app]. split; [reflexivity|]. split.
    + rewrite length_app, !length_map. reflexivity.
    + apply Forall_app. split; apply Forall_map, Forall_forall; reflexivity.
Qed.

(** A node of the graph without a [name] entry keeps the emitter from
    returning, and the sink executes no relationship statement, whatever
    the driver does and wherever the node stands in the set; with a driver
    that has every statement executed, the exception is the [KeyError] of
    the missing key. *)
Theorem emission_fails_at_unnamed_node (g : Graph) (n : Node) :
  In n (nodes g) ->
  dict_get "name" (items n) = None ->
  (exists e, fst (write_graph_to_neo4j g driver database []) = Raise e) /\
  (forall j q,
      snd (write_graph_to_neo4j g driver database []) !! j = Some q ->
      exists label m, fst q = CreateNode label m) /\
  ((forall l q, driver l q = None) ->
   fst (write_graph_to_neo4j g driver database []) = Raise (KeyError "name")).
Proof.
  intros Hin Hn.
  destruct (emission_log driver database g)
    as (ns1 & ns2 & qn & qr & Hns & Hlog & Hqn & Hqr & Hall & Hok).
  assert (Hns2 : ns2 <> []).
  { intros ->. rewrite app_nil_r in Hns. rewrite Hns in Hin.
    apply list_elem_of_In, list_elem_of_lookup in Hin as [i Hi].
    destruct (Forall2_lookup_l _ _ _ _ _ Hqn Hi) as (q & _ & (label & Hl & _)).
    congruence. }
  split; [|split].
  - destruct (fst (write_graph_to_neo4j g driver database [])) as [[]|e];
      [|eauto].
    exfalso. apply Hns2, Hok. reflexivity.
  - intros j q Hj. rewrite Hlog in Hj.
    assert (qr = []) as ->.
    { destruct qr as [|q0 qr]; [reflexivity|].
      exfalso. apply Hns2, Hall. discriminate. }
    rewrite app_nil_r in Hj.
    destruct (Forall2_lookup_r _ _ _ _ _ Hqn Hj) as (m & _ & (label & _ & ->)).
    exists label, m. reflexivity.
  - intros Hacc. unfold write_graph_to_neo4j, bind.
    assert (Hloop : forall ns log,
               In n ns ->
               fst (for_each ns (emit_node driver database) log) =
               Raise (KeyError "name")).
    { induction ns as [|m ns IH]; intros log Hm; [destruct Hm|].
      cbn [for_each]. unfold bind. rewrite emit_node_run.
      destruct (dict_get "name" (items m)) as [label|] eqn:Em.
      - unfold execute_query. rewrite Hacc. apply IH.
        destruct Hm as [->|Hm]; [congruence | exact Hm].
      - reflexivity. }
    specialize (Hloop (nodes g) [] Hin).
    destruct (for_each (nodes g) (emit_node driver database) [])
      as [[[]|e] l1]; cbn [fst] in *; [discriminate | exact Hloop].
Qed.

End EmitterOutcome.

(** A graph grown by walking a file from a graph whose nodes and
    relationship endpoints have the entries [name] and [id] is emitted
    without a missing-key error, after a finished or an aborted walk and
    whatever the driver does: the emitter returns, or the driver raised. *)
Theorem walk_then_emit (rt : runtime) (uuid4 : nat -> string) (f : ifc_file)
    (s : state) (driver : Driver) (database : string) :
  well_keyed (graph s) ->
  returned_or_driver_error
    (fst (write_graph_to_neo4j (graph (snd (create_full_graph rt uuid4 f s)))
            driver database [])).
Proof.
  intros Hs. apply emission_outcome.
  apply walker_keeps_well_keyed. exact Hs.
Qed.

(** * Aggregates, inverse references and the walker's outcome *)

(** What a loop of build-and-merge steps from [node] under the name [nm]
    over the entities [subs] does to the state: the node set stays, no
    relationship is lost, every entity of [subs] has its relationship, every
    new relationship is one of those, and at most one is added per entity. *)
Definition linked (rt : runtime) (uuid4 : nat -> string) (node : Node)
    (nm : string) (f : ifc_file) (subs : list entity) (s s' : state) : Prop :=
  nodes (graph s') = nodes (graph s) /\
  (forall r, In r (relationships (graph s)) ->
             In r (relationships (graph s'))) /\
  (forall sub, In sub subs ->
     exists r k,
       In r (relationships (graph s')) /\
       Relationship_eq rt r
         {| start_node := node; rel_type := nm;
            end_node :=
              fst (create_pure_node_from_ifc_entity uuid4 sub f true k) |}
       = true) /\
  (forall r, In r (relationships (graph s')) ->
     In r (relationships (graph s)) \/
     (start_node r = node /\ rel_type r = nm /\
      exists sub k,
        In sub subs /\
        end_node r =
        fst (create_pure_node_from_ifc_entity uuid4 sub f true k))) /\
  (length (relationships (graph s'))
   <= length (relationships (graph s)) + length subs)%nat.

(** An argument whose value has the shape its declared kind announces. *)
Definition well_formed_argument (rt : runtime) (a : argument) : Prop :=
  truthy rt (arg_value a) = true ->
  (arg_type a = "ENTITY INSTANCE" -> exists sub, arg_value a = VEntity sub) /\
  (arg_type a = "AGGREGATE OF ENTITY INSTANCE" ->
   exists subs, arg_value a = VTuple (map VEntity subs)).

(** An entity whose arguments are well formed and whose inverse references
    resolve in the file. *)
Definition well_formed_entity (rt : runtime) (f : ifc_file) (e : entity)
  : Prop :=
  Forall (well_formed_argument rt) (e_args e) /\
  Forall (fun inv => Forall (fun i => is_Some (by_id f i)) (snd inv))
    (e_inverses e).

Lemma for_each_returns {S A : Type} (l : list A) (body : A -> M S unit) :
  (forall x, In x l -> forall s, exists s', body x s = (Ok tt, s')) ->
  forall s, exists s', for_each l body s = (Ok tt, s').
Proof.
  induction l as [|x l IH]; intros Hbody s; cbn [for_each].
  - eexists. reflexivity.
  - unfold bind. destruct (Hbody x (or_introl eq_refl) s) as [s1 ->].
    apply IH. intros y Hy. apply Hbody. right. exact Hy.
Qed.

Lemma for_each_app {S A : Type} (l1 l2 : list A) (body : A -> M S unit)
    (s s1 : S) :
  for_each l1 body s = (Ok tt, s1) ->
  for_each (l1 ++ l2) body s = for_each l2 body s1.
Proof.
  revert s. induction l1 as [|x l1 IH]; intros s Hrun; cbn [for_each app] in *.
  - injection Hrun as ->. reflexivity.
  - unfold bind in *. destruct (body x s) as [[[]|e] s0]; [|discriminate].
    apply IH. exact Hrun.
Qed.

Lemma bind_ret {S A B : Type} (a : A) (k : A -> M S B) (s : S) :
  bind (ret a) k s = k a s.
Proof. reflexivity. Qed.

Lemma for_each_map {S A B : Type} (g : A -> B) (l : list A)
    (b1 : B -> M S unit) (b2 : A -> M S unit) :
  (forall x s, b1 (g x) s = b2 x s) ->
  forall s, for_each (map g l) b1 s = for_each l b2 s.
Proof.
  intros Hb. induction l as [|x l IH]; intros s; [reflexivity|].
  cbn [map for_each]. unfold bind. rewrite Hb.
  destruct (b2 x s) as [[[]|e] s1]; [apply IH | reflexivity].
Qed.

Lemma for_each_Forall2 {S A B : Type} (P : A -> B -> Prop) (l : list A)
    (k : list B) (b1 : A -> M S unit) (b2 : B -> M S unit) :
  Forall2 P l k ->
  (forall x y s, P x y -> b1 x s = b2 y s) ->
  forall s, for_each l b1 s = for_each k b2 s.
Proof.
  intros Hlk Hb. induction Hlk as [|x y l k Hxy _ IH]; intros s; [reflexivity|].
  cbn [for_each]. unfold bind. rewrite (Hb x y s Hxy).
  destruct (b2 y s) as [[[]|e] s1]; [apply IH | reflexivity].
Qed.

Lemma resolved_entities {A B : Type} (g : A -> option B) (l : list A) :
  Forall (fun i => is_Some (g i)) l ->
  exists k, Forall2 (fun i x => g i = Some x) l k.
Proof.
  induction 1 as [|i l [x Hx] _ [k IH]].
  - exists []. constructor.
  - exists (x :: k). constructor; assumption.
Qed.

Section Expansion.

Variable rt : runtime.
Variable uuid4 : nat -> string.

Lemma linked_nil (node : Node) (nm : string) (f : ifc_file) (s : state) :
  linked rt uuid4 node nm f [] s s.
Proof.
  unfold linked. split; [reflexivity|]. split; [auto|].
  split; [intros sub []|]. split; [auto|]. cbn [length]. lia.
Qed.

Lemma link_loop (node : Node) (nm : string) (f : ifc_file)
    (subs : list entity) (s : state) :
  exists s',
    for_each subs (fun sub => link rt uuid4 node nm sub f) s = (Ok tt, s') /\
    linked rt uuid4 node nm f subs s s'.
Proof.
  revert s. induction subs as [|sub subs IH]; intros s.
  - exists s. split; [reflexivity | apply linked_nil].
  - cbn [for_each]. unfold bind. rewrite link_run.
    match goal with |- context [for_each subs _ ?s1] =>
      destruct (IH s1) as (s' & Hrun & Hn & Hkeep & Hall & Hnew & Hlen)
    end.
    cbn [graph nodes relationships drawn] in *.
    exists s'. split; [exact Hrun|]. unfold linked.
    split; [exact Hn|]. split; [|split; [|split]].
    + intros r Hr. apply Hkeep, set_add_incl. exact Hr.
    + intros x [<-|Hx]; [|apply Hall; exact Hx].
      destruct (set_add_holds (Relationship_hash rt) (Relationship_eq rt)
                  {| start_node := node; rel_type := nm;
                     end_node :=
                       fst (create_pure_node_from_ifc_entity uuid4 sub f true
                              (drawn s)) |}
                  (relationships (graph s)) (Relationship_eq_refl rt))
        as (y & Hy & _ & Heq).
      exists y, (drawn s). split; [apply Hkeep; exact Hy | exact Heq].
    + intros r Hr. destruct (Hnew r Hr) as [Hold|(Hs & Ht & x & k & Hx & He)].
      * apply set_add_inv in Hold as [Hold| ->]; [left; exact Hold|].
        right. cbn. split; [reflexivity|]. split; [reflexivity|].
        exists sub, (drawn s). split; [left|]; reflexivity.
      * right. split; [exact Hs|]. split; [exact Ht|].
        exists x, k. split; [right|]; assumption.
    + pose proof (set_add_length (Relationship_hash rt) (Relationship_eq rt)
                    {| start_node := node; rel_type := nm;
                       end_node :=
                         fst (create_pure_node_from_ifc_entity uuid4 sub f true
                                (drawn s)) |}
                    (relationships (graph s))) as Hadd.
      cbn [length]. lia.
Qed.

Lemma aggregate_loop (node : Node) (nm : string) (f : ifc_file)
    (subs : list entity) (s : state) :
  for_each (map VEntity subs) (fun v =>
    bind (as_entity v) (fun sub_entity =>
      bind (build uuid4 sub_entity f) (fun sub_node =>
        graph_merge rt (ORel {| start_node := node; rel_type := nm;
                                end_node := sub_node |})))) s =
  for_each subs (fun sub => link rt uuid4 node nm sub f) s.
Proof. apply for_each_map. intros sub s0. reflexivity. Qed.

Lemma inverse_loop (node : Node) (nm : string) (f : ifc_file) (ids : list Z)
    (subs : list entity) (s : state) :
  Forall2 (fun i sub => by_id f i = Some sub) ids subs ->
  for_each ids (fun wrapped_id =>
    bind (file_by_id f wrapped_id) (fun rel_entity =>
      bind (build uuid4 rel_entity f) (fun sub_node =>
        graph_merge rt (ORel {| start_node := node; rel_type := nm;
                                end_node := sub_node |})))) s =
  for_each subs (fun sub => link rt uuid4 node nm sub f) s.
Proof.
  intros Hres. apply (for_each_Forall2 _ _ _ _ _ Hres).
  intros i sub s0 Hi. unfold link, bind at 1, file_by_id. rewrite Hi.
  reflexivity.
Qed.

(** Collection expansion. An aggregate of entity references yields one
    relationship per element, all from the entity's node and all named by
    the attribute, and no node; the OwnerHistory rule is not applied to the
    elements. *)
Theorem aggregate_expansion (node : Node) (e : entity) (f : ifc_file)
    (a : argument) (subs : list entity) (s : state) :
  arg_type a = "AGGREGATE OF ENTITY INSTANCE" ->
  arg_value a = VTuple (map VEntity subs) ->
  exists s',
    forward_attribute rt uuid4 node e f a s = (Ok tt, s') /\
    linked rt uuid4 node (arg_name a) f subs s s'.
Proof.
  intros Hty Hval. unfold forward_attribute. rewrite Hval.
  destruct (truthy rt (VTuple (map VEntity subs))) eqn:Et.
  - destruct (String.eqb_spec (arg_type a) "ENTITY INSTANCE") as [Hty'|_];
      [rewrite Hty in Hty'; discriminate|].
    rewrite Hty, String.eqb_refl. cbn [iterate]. rewrite bind_ret.
    rewrite aggregate_loop. apply link_loop.
  - destruct subs; [|discriminate].
    exists s. split; [reflexivity | apply linked_nil].
Qed.

Lemma inverse_attribute_links (node : Node) (f : ifc_file) (nm : string)
    (ids : list Z) (subs : list entity) (s : state) :
  Forall2 (fun i sub => by_id f i = Some sub) ids subs ->
  inverse_attribute rt uuid4 node f (nm, ids) s =
  for_each subs (fun sub => link rt uuid4 node nm sub f) s.
Proof.
  intros Hres. unfold inverse_attribute.
  destruct Hres as [|i sub ids subs Hi Hres]; [reflexivity|].
  apply inverse_loop. constructor; assumption.
Qed.

(** Inverse expansion. When every referencing identifier resolves in the
    file, an inverse attribute yields one relationship per referencing
    entity, from the entity's node to the node built for the referencing
    entity, named by the inverse attribute, and no node. *)
Theorem inverse_expansion (node : Node) (f : ifc_file) (nm : string)
    (ids : list Z) (subs : list entity) (s : state) :
  Forall2 (fun i sub => by_id f i = Some sub) ids subs ->
  exists s',
    inverse_attribute rt uuid4 node f (nm, ids) s = (Ok tt, s') /\
    linked rt uuid4 node nm f subs s s'.
Proof.
  intros Hres. rewrite (inverse_attribute_links node f nm ids subs s Hres).
  apply link_loop.
Qed.

(** An inverse reference that does not resolve stops the loop with the
    error of [by_id]; the relationships of the references before it stay
    merged. *)
Theorem inverse_unresolved (node : Node) (f : ifc_file) (nm : string)
    (pre post : list Z) (i : Z) (subs : list entity) (s : state) :
  Forall2 (fun j sub => by_id f j = Some sub) pre subs ->
  by_id f i = None ->
  exists s',
    inverse_attribute rt uuid4 node f (nm, (pre ++ i :: post)%list) s =
    (Raise RuntimeError, s') /\
    linked rt uuid4 node nm f subs s s'.
Proof.
  intros Hres Hi.
  destruct (link_loop node nm f subs s) as (s1 & Hrun & Hlinked).
  rewrite <- (inverse_loop node nm f pre subs s Hres) in Hrun.
  exists s1. split; [|exact Hlinked].
  unfold inverse_attribute.
  assert (Hloop : for_each (pre ++ i :: post)%list (fun wrapped_id =>
            bind (file_by_id f wrapped_id) (fun rel_entity =>
              bind (build uuid4 rel_entity f) (fun sub_node =>
                graph_merge rt (ORel {| start_node := node; rel_type := nm;
                                        end_node := sub_node |})))) s
          = (Raise RuntimeError, s1)).
  { rewrite (for_each_app _ _ _ _ _ Hrun). cbn [for_each].
    unfold bind at 1. unfold bind at 1. unfold file_by_id. rewrite Hi.
    reflexivity. }
  destruct (pre ++ i :: post)%list eqn:E; [|exact Hloop].
  destruct pre; discriminate.
Qed.

Lemma forward_attribute_returns (node : Node) (e : entity) (f : ifc_file)
    (a : argument) (s : state) :
  well_formed_argument rt a ->
  exists s', forward_attribute rt uuid4 node e f a s = (Ok tt, s').
Proof.
  intros Hwf. unfold forward_attribute.
  destruct (truthy rt (arg_value a)) eqn:Et; [|eexists; reflexivity].
  destruct (Hwf Et) as [Hsingle Hagg].
  destruct (String.eqb_spec (arg_type a) "ENTITY INSTANCE") as [Hty|Hty].
  - destruct (Hsingle Hty) as [sub ->]. cbn [as_entity]. rewrite bind_ret.
    destruct (_ && _); [eexists; reflexivity|].
    change (bind (build uuid4 sub f) (fun sub_node =>
              graph_merge rt (ORel {| start_node := node;
                                      rel_type := arg_name a;
                                      end_node := sub_node |})) s)
      with (link rt uuid4 node (arg_name a) sub f s).
    rewrite link_run. eexists. reflexivity.
  - destruct (String.eqb_spec (arg_type a) "AGGREGATE OF ENTITY INSTANCE")
      as [Hty'|Hty']; [|eexists; reflexivity].
    destruct (Hagg Hty') as [subs ->]. cbn [iterate]. rewrite bind_ret.
    rewrite aggregate_loop.
    destruct (link_loop node (arg_name a) f subs s) as (s' & Hrun & _).
    exists s'. exact Hrun.
Qed.

Lemma extractor_returns (e : entity) (f : ifc_file) (s : state) :
  well_formed_entity rt f e ->
  exists s', create_graph_from_ifc_entity_all rt uuid4 e f s = (Ok tt, s').
Proof.
  intros [Hargs Hinv]. rewrite extractor_unfold. unfold extractor_loops, bind.
  match goal with |- context [for_each (e_args e) ?body ?s1] =>
    destruct (for_each_returns (e_args e) body) with (s := s1) as [s2 ->]
  end.
  { intros a Ha s0. apply forward_attribute_returns.
    rewrite Stdlib.Lists.List.Forall_forall in Hargs. apply Hargs. exact Ha. }
  apply for_each_returns. intros [nm ids] Hin s0.
  rewrite Stdlib.Lists.List.Forall_forall in Hinv. specialize (Hinv _ Hin). cbn [snd] in Hinv.
  destruct (resolved_entities _ _ Hinv) as [subs Hres].
  rewrite (inverse_attribute_links _ f nm ids subs s0 Hres).
  destruct (link_loop
              (fst (create_pure_node_from_ifc_entity uuid4 e f true (drawn s)))
              nm f subs s0) as (s' & Hrun & _).
  exists s'. exact Hrun.
Qed.

(** The walker returns normally on a file whose listed identifiers all
    resolve to well-formed entities. *)
Theorem walker_returns (f : ifc_file) (s : state) :
  Forall (fun i => exists e, by_id f i = Some e /\ well_formed_entity rt f e)
    (entity_names f) ->
  exists s', create_full_graph rt uuid4 f s = (Ok tt, s').
Proof.
  intros Hall. rewrite create_full_graph_visits.
  apply for_each_returns. intros i Hi s0.
  rewrite Stdlib.Lists.List.Forall_forall in Hall. destruct (Hall i Hi) as (e & He & Hwf).
  rewrite visit_run, He. apply extractor_returns. exact Hwf.
Qed.

(** The first listed identifier that does not resolve aborts the walk with
    the error of [by_id]; the graph stays as the entities before it left
    it. *)
Theorem walker_unresolved (f : ifc_file) (pre post : list Z) (i : Z)
    (s s1 : state) :
  entity_names f = (pre ++ i :: post)%list ->
  for_each pre (visit rt uuid4 f) s = (Ok tt, s1) ->
  by_id f i = None ->
  create_full_graph rt uuid4 f s = (Raise RuntimeError, s1).
Proof.
  intros Hnames Hpre Hi. rewrite create_full_graph_visits, Hnames.
  rewrite (for_each_app _ _ _ _ _ Hpre). cbn [for_each].
  unfold bind. rewrite visit_run, Hi. reflexivity.
Qed.

End Expansion.

(** * Merging and looking up *)

(** [r in s] for a set of relationships. *)
Definition relationship_contains (rt : runtime) (r : Relationship)
    (s : list Relationship) : bool :=
  existsb (fun y => (Relationship_hash rt y =? Relationship_hash rt r)
                    && Relationship_eq rt y r) s.

Lemma set_add_contains {A : Type} (hash : A -> Z) (eq : A -> A -> bool)
    (x : A) (s : list A) :
  eq x x = true ->
  existsb (fun y => (hash y =? hash x) && eq y x) (set_add hash eq x s) = true.
Proof.
  intros Hrefl. unfold set_add.
  destruct (existsb (fun y => (hash y =? hash x) && eq y x) s) eqn:E;
    [exact E|].
  rewrite existsb_app. cbn [existsb]. rewrite Z.eqb_refl, Hrefl.
  rewrite orb_true_r. reflexivity.
Qed.

Lemma set_add_contains_mono {A : Type} (hash : A -> Z) (eq : A -> A -> bool)
    (x m : A) (s : list A) :
  existsb (fun y => (hash y =? hash m) && eq y m) s = true ->
  existsb (fun y => (hash y =? hash m) && eq y m) (set_add hash eq x s) = true.
Proof.
  intros Hm. unfold set_add.
  destruct (existsb (fun y => (hash y =? hash x) && eq y x) s); [exact Hm|].
  rewrite existsb_app, Hm. reflexivity.
Qed.

Lemma set_add_length_exact {A : Type} (hash : A -> Z) (eq : A -> A -> bool)
    (x : A) (s : list A) :
  length (set_add hash eq x s) =
  (length s +
   if existsb (fun y => (hash y =? hash x)%Z && eq y x) s then 0 else 1)%nat.
Proof.
  unfold set_add. destruct (existsb _ s); [lia|].
  rewrite length_app. reflexivity.
Qed.

(** After [merge], the merged node (relationship) is found in the node
    (relationship) set, everything found before is still found, the set
    has grown by one element exactly when nothing equal was in it, and the
    other set is untouched. *)
Theorem merge_then_lookup (rt : runtime) (g : Graph) :
  (forall n,
      set_contains rt n (nodes (snd (merge rt g (ONode n)))) = true /\
      (forall m, set_contains rt m (nodes g) = true ->
                 set_contains rt m (nodes (snd (merge rt g (ONode n)))) = true) /\
      length (nodes (snd (merge rt g (ONode n)))) =
        (length (nodes g) + if set_contains rt n (nodes g) then 0 else 1)%nat /\
      relationships (snd (merge rt g (ONode n))) = relationships g) /\
  (forall r,
      relationship_contains rt r
        (relationships (snd (merge rt g (ORel r)))) = true /\
      (forall m, relationship_contains rt m (relationships g) = true ->
                 relationship_contains rt m
                   (relationships (snd (merge rt g (ORel r)))) = true) /\
      length (relationships (snd (merge rt g (ORel r)))) =
        (length (relationships g)
         + if relationship_contains rt r (relationships g) then 0 else 1)%nat /\
      nodes (snd (merge rt g (ORel r))) = nodes g).
Proof.
  split.
  - intros n. cbn [merge snd nodes relationships]. unfold set_contains.
    split; [apply set_add_contains, Node_eq_refl|].
    split; [intros m; apply set_add_contains_mono|].
    split; [apply set_add_length_exact | reflexivity].
  - intros r. cbn [merge snd nodes relationships].
    unfold relationship_contains.
    split; [apply set_add_contains, Relationship_eq_refl|].
    split; [intros m; apply set_add_contains_mono|].
    split; [apply set_add_length_exact | reflexivity].
Qed.

(** * Walking a file again *)

Section Rewalk.

Variable rt : runtime.
Variable uuid4 : nat -> string.

Lemma primarykey_stable (e : entity) (f : ifc_file) (k1 k2 : nat) :
  e_id e <> 0 ->
  primarykey (fst (create_pure_node_from_ifc_entity uuid4 e f true k1)) =
  primarykey (fst (create_pure_node_from_ifc_entity uuid4 e f true k2)).
Proof.
  intros Hid. rewrite !builder_primarykey. unfold initial_id.
  apply Z.eqb_neq in Hid. rewrite Hid. reflexivity.
Qed.

(** A walk that returns has, for every listed identifier, visited its
    entity from some state, and the node set of the final graph holds all
    nodes that were there after the entity's own node was merged. *)
Lemma walker_reaches (f : ifc_file) (s s' : state) (i : Z) :
  create_full_graph rt uuid4 f s = (Ok tt, s') ->
  In i (entity_names f) ->
  exists e s1,
    by_id f i = Some e /\
    forall n, In n (nodes (graph (after_own_node rt uuid4 e f s1))) ->
              In n (nodes (graph s')).
Proof.
  intros Hrun Hin.
  destruct (for_each_reaches (extends) extends_refl extends_trans
              (entity_names f) (visit rt uuid4 f) i s s'
              (extends_visit rt uuid4 f) Hin Hrun)
    as (s1 & s2 & _ & Hstep & [Hnodes _]).
  rewrite visit_run in Hstep. destruct (by_id f i) as [e|]; [|discriminate].
  exists e, s1. split; [reflexivity|]. intros n Hn. apply Hnodes.
  pose proof (extractor_nodes rt uuid4 e f s1) as Hx.
  rewrite Hstep in Hx. cbn [snd] in Hx. rewrite Hx. exact Hn.
Qed.

(** Every entity of [l] has, in the node set [ns], a node with the hash of
    the node the builder returns for it at any moment. *)
Definition all_present (f : ifc_file) (l : list Z) (ns : list Node) : Prop :=
  forall i e, In i l -> by_id f i = Some e ->
    exists n, In n ns /\
      forall k, Node_hash rt n =
                Node_hash rt
                  (fst (create_pure_node_from_ifc_entity uuid4 e f true k)).

Lemma visits_add_no_node (f : ifc_file) (l : list Z) (s : state) :
  all_present f l (nodes (graph s)) ->
  nodes (graph (snd (for_each l (visit rt uuid4 f) s))) = nodes (graph s).
Proof.
  revert s. induction l as [|i l IH]; intros s Hall; [reflexivity|].
  cbn [for_each]. unfold bind. rewrite visit_run.
  destruct (by_id f i) as [e|] eqn:Ei; [|reflexivity].
  pose proof (extractor_nodes rt uuid4 e f s) as Hx.
  destruct (Hall i e (or_introl eq_refl) Ei) as (n & Hn & Hh).
  rewrite (set_add_present (Node_hash rt) (Node_eq rt)
             (fst (create_pure_node_from_ifc_entity uuid4 e f true (drawn s)))
             n (nodes (graph s)) Hn (Hh (drawn s))) in Hx
    by (unfold Node_eq; rewrite (Hh (drawn s)); apply Z.eqb_refl).
  destruct (create_graph_from_ifc_entity_all rt uuid4 e f s) as [[[]|x] s1];
    cbn [snd] in *; [|exact Hx].
  rewrite IH; [exact Hx|].
  rewrite Hx. intros j e' Hj He'. apply (Hall j e'); [right; exact Hj | exact He'].
Qed.

(** Walking a file a second time adds no node when the file's entities have
    non-zero identifiers: every entity is visited again, and the set
    semantics of the graph, not the walker, keep its node out. *)
Theorem rewalk_adds_no_node (f : ifc_file) (s s1 : state) :
  create_full_graph rt uuid4 f s = (Ok tt, s1) ->
  (forall i e, In i (entity_names f) -> by_id f i = Some e -> e_id e <> 0) ->
  nodes (graph (snd (create_full_graph rt uuid4 f s1))) = nodes (graph s1).
Proof.
  intros Hrun Hids. rewrite create_full_graph_visits.
  apply visits_add_no_node. intros i e Hi He.
  destruct (walker_reaches f s s1 i Hrun Hi) as (e' & s0 & He' & Hin).
  rewrite He in He'. injection He' as <-.
  destruct (set_add_holds (Node_hash rt) (Node_eq rt)
              (fst (create_pure_node_from_ifc_entity uuid4 e f true (drawn s0)))
              (nodes (graph s0)) (Node_eq_refl rt))
    as (n & Hn & Hh & _).
  exists n. split; [apply Hin; exact Hn|].
  intros k. rewrite Hh. unfold Node_hash.
  rewrite (primarykey_stable e f (drawn s0) k (Hids i e Hi He)). reflexivity.
Qed.

End Rewalk.

(** * Text of nodes and relationships *)

(** [Node.__repr__] *)
Definition Node_repr (rt : runtime) (n : Node) : string := Node_str rt n.

(** [Relationship.__str__] and [Relationship.__repr__] *)
Definition Relationship_str (rt : runtime) (r : Relationship) : string :=
  "Relationship(" +:+ Node_str rt (start_node r) +:+ ", " +:+ rel_type r
  +:+ ", " +:+ Node_str rt (end_node r) +:+ ")".

Definition Relationship_repr (rt : runtime) (r : Relationship) : string :=
  Relationship_str rt r.

(** * Further models, run *)

(** A shape (#30) with an aggregate of two representations (#31, #32), a
    storey (#40) that two entities of the building refer to, a storey (#41)
    with a reference that the building does not resolve, and a file that
    lists an identifier it does not hold. *)
Definition item31 : entity :=
  Entity 31 "IfcShapeRepresentation" (isa_in ["IfcShapeRepresentation"])
    [Argument "RepresentationType" "STRING" (VStr "Brep")] [].

Definition item32 : entity :=
  Entity 32 "IfcShapeRepresentation" (isa_in ["IfcShapeRepresentation"])
    [Argument "RepresentationType" "STRING" (VStr "Curve2D")] [].

Definition representations30 : argument :=
  Argument "Representations" "AGGREGATE OF ENTITY INSTANCE"
    (VTuple (map VEntity [item31; item32])).

Definition shape30 : entity :=
  Entity 30 "IfcProductDefinitionShape" (isa_in ["IfcProductDefinitionShape"])
    [Argument "Name" "STRING" VNone; representations30] [].

Definition storey40 : entity :=
  Entity 40 "IfcBuildingStorey" (isa_in ["IfcBuildingStorey"])
    [Argument "Name" "STRING" (VStr "Ground")]
    [("ContainsElements", [5; 7])].

Definition broken_file : ifc_file :=
  {| types_with_super := ["IfcWall"; "IfcLocalPlacement"];
     entity_names := [7; 99; 5];
     by_id := fun i =>
       if i =? 5 then Some wall5 else
       if i =? 7 then Some placement7 else None |}.

Definition walked : state :=
  snd (create_full_graph sample_runtime sample_uuid4 building_file empty_state).

(** The wall's node and a node without entries. *)
Definition half_keyed_graph : Graph :=
  {| nodes := [built wall5 building_file 0; Node_new]; relationships := [] |}.

Ltac each_argument Hin :=
  cbn in Hin;
  repeat (destruct Hin as [<-|Hin]; [cbn; try discriminate|]);
  try contradiction.

Lemma native_identity_witness :
  primarykey (built wall5 building_file 0) = VStr "5" /\
  dict_get "id" (items (built wall5 building_file 0)) = Some (VStr "5") /\
  snd (create_pure_node_from_ifc_entity sample_uuid4 wall5 building_file
         true 0) = 0%nat /\
  (primarykey (built wall5 building_file 0) =
   primarykey (fst (create_pure_node_from_ifc_entity sample_uuid4 placement7
                      property_file false 4)) <->
   5 = 7).
Proof.
  apply (native_identity sample_uuid4 wall5 placement7 building_file
           property_file true false 0 4).
  - cbn. discriminate.
  - cbn. discriminate.
  - intros a Hin _. each_argument Hin.
  - intros a Hin _. each_argument Hin.
Defined.

Lemma builder_property_values_witness :
  dict_get "GlobalId" (items (built wall5 building_file 0)) =
  Some (VStr "2O2Fr$t4X7Zf8NOew3FLOH").
Proof.
  apply (builder_property_values sample_uuid4 wall5 building_file true 0
           (Argument "GlobalId" "STRING" (VStr "2O2Fr$t4X7Zf8NOew3FLOH"))).
  - cbn. repeat constructor; cbn; intuition discriminate.
  - cbn. auto.
  - reflexivity.
Defined.

Lemma builder_primary_label_witness :
  primarylabel (built wall5 building_file 0) = VStr "IfcWall" /\
  dict_get "name" (items (built wall5 building_file 0)) = Some (VStr "IfcWall").
Proof.
  apply (builder_primary_label sample_uuid4 wall5 building_file true 0).
  intros a Hin _. each_argument Hin.
Defined.

Lemma extractor_relationships_start_at_entity_witness :
  In {| start_node := built wall5 building_file 0;
        rel_type := "ObjectPlacement";
        end_node := built placement7 building_file 0 |}
     (relationships (graph empty_state)) \/
  (built wall5 building_file 0 =
     fst (create_pure_node_from_ifc_entity sample_uuid4 wall5 building_file
            true 0) /\
   exists sub k,
     built placement7 building_file 0 =
     fst (create_pure_node_from_ifc_entity sample_uuid4 sub building_file
            true k)).
Proof.
  apply (extractor_relationships_start_at_entity sample_runtime sample_uuid4
           wall5 building_file empty_state
           {| start_node := built wall5 building_file 0;
              rel_type := "ObjectPlacement";
              end_node := built placement7 building_file 0 |}).
  vm_compute. left. reflexivity.
Defined.

Lemma walker_covers_listed_entities_witness :
  exists e n k,
    by_id building_file 7 = Some e /\ In n (nodes (graph walked)) /\
    Node_eq sample_runtime n
      (fst (create_pure_node_from_ifc_entity sample_uuid4 e building_file
              true k)) = true.
Proof.
  apply (walker_covers_listed_entities sample_runtime sample_uuid4
           building_file empty_state walked 7).
  - vm_compute. reflexivity.
  - cbn. auto.
Defined.

Lemma emission_complete_witness :
  exists log,
    write_graph_to_neo4j property_graph accepting "ifc-graph" [] =
      (Ok tt, log) /\
    Permutation log
      (map (create_statement "ifc-graph") (nodes property_graph)
       ++ map (match_statement "ifc-graph")
            (relationships property_graph))%list /\
    length log =
      (length (nodes property_graph)
       + length (relationships property_graph))%nat /\
    Forall (fun q => snd q = "ifc-graph") log.
Proof.
  apply (emission_complete accepting "ifc-graph" property_graph).
  - split; vm_compute; repeat constructor; eauto.
  - reflexivity.
Defined.

(** The walk of a file that lists an identifier it does not hold is
    aborted; the graph it leaves is emitted to a driver that loses its
    connection after the first statement. *)
Lemma walk_then_emit_witness :
  returned_or_driver_error
    (fst (write_graph_to_neo4j
            (graph (snd (create_full_graph sample_runtime sample_uuid4
                           broken_file empty_state)))
            failing_after_one "ifc-graph" [])).
Proof.
  apply (walk_then_emit sample_runtime sample_uuid4 broken_file empty_state
           failing_after_one "ifc-graph").
  split; constructor.
Defined.

Lemma emission_fails_at_unnamed_node_witness :
  (exists e,
      fst (write_graph_to_neo4j half_keyed_graph accepting "ifc-graph" []) =
      Raise e) /\
  (forall j q,
      snd (write_graph_to_neo4j half_keyed_graph accepting "ifc-graph" [])
        !! j = Some q ->
      exists label m, fst q = CreateNode label m) /\
  ((forall l q, accepting l q = None) ->
   fst (write_graph_to_neo4j half_keyed_graph accepting "ifc-graph" []) =
   Raise (KeyError "name")).
Proof.
  apply (emission_fails_at_unnamed_node accepting "ifc-graph" half_keyed_graph
           Node_new).
  - cbn. auto.
  - reflexivity.
Defined.

Lemma aggregate_expansion_witness :
  exists s',
    forward_attribute sample_runtime sample_uuid4
      (built shape30 building_file 0) shape30 building_file representations30
      empty_state = (Ok tt, s') /\
    linked sample_runtime sample_uuid4 (built shape30 building_file 0)
      "Representations" building_file [item31; item32] empty_state s'.
Proof.
  apply (aggregate_expansion sample_runtime sample_uuid4
           (built shape30 building_file 0) shape30 building_file
           representations30 [item31; item32] empty_state);
    reflexivity.
Defined.

Lemma inverse_expansion_witness :
  exists s',
    inverse_attribute sample_runtime sample_uuid4
      (built storey40 building_file 0) building_file
      ("ContainsElements", [5; 7]) empty_state = (Ok tt, s') /\
    linked sample_runtime sample_uuid4 (built storey40 building_file 0)
      "ContainsElements" building_file [wall5; placement7] empty_state s'.
Proof.
  apply (inverse_expansion sample_runtime sample_uuid4
           (built storey40 building_file 0) building_file "ContainsElements"
           [5; 7] [wall5; placement7] empty_state).
  repeat constructor.
Defined.

Lemma inverse_unresolved_witness :
  exists s',
    inverse_attribute sample_runtime sample_uuid4
      (built storey40 building_file 0) building_file
      ("ContainsElements", [5; 99; 7]) empty_state = (Raise RuntimeError, s') /\
    linked sample_runtime sample_uuid4 (built storey40 building_file 0)
      "ContainsElements" building_file [wall5] empty_state s'.
Proof.
  apply (inverse_unresolved sample_runtime sample_uuid4
           (built storey40 building_file 0) building_file "ContainsElements"
           [5] [7] 99 [wall5] empty_state).
  - repeat constructor.
  - reflexivity.
Defined.

Ltac well_formed_arguments :=
  repeat (apply List.Forall_cons;
          [ intros Ht; split; intros Hk; cbn in Ht, Hk;
            first [discriminate Ht | discriminate Hk | cbn; eauto] |]);
  apply List.Forall_nil.

Lemma building_entities_well_formed :
  Forall (fun i => exists e, by_id building_file i = Some e /\
                             well_formed_entity sample_runtime building_file e)
    (entity_names building_file).
Proof.
  cbn [entity_names building_file].
  repeat (apply List.Forall_cons;
          [ eexists; split; [reflexivity|];
            split; [well_formed_arguments | apply List.Forall_nil] |]).
  apply List.Forall_nil.
Qed.

Lemma walker_returns_witness :
  exists s',
    create_full_graph sample_runtime sample_uuid4 building_file empty_state =
    (Ok tt, s').
Proof.
  apply (walker_returns sample_runtime sample_uuid4 building_file empty_state).
  exact building_entities_well_formed.
Defined.

Lemma walker_unresolved_witness :
  create_full_graph sample_runtime sample_uuid4 broken_file empty_state =
  (Raise RuntimeError,
   snd (for_each [7] (visit sample_runtime sample_uuid4 broken_file)
          empty_state)).
Proof.
  apply (walker_unresolved sample_runtime sample_uuid4 broken_file [7] [5] 99
           empty_state).
  - reflexivity.
  - vm_compute. reflexivity.
  - reflexivity.
Defined.

Lemma rewalk_adds_no_node_witness :
  nodes (graph (snd (create_full_graph sample_runtime sample_uuid4
                       building_file walked))) = nodes (graph walked).
Proof.
  apply (rewalk_adds_no_node sample_runtime sample_uuid4 building_file
           empty_state walked).
  - vm_compute. reflexivity.
  - intros i e Hi He. cbn in Hi.
    repeat (destruct Hi as [<-|Hi];
            [cbn in He; injection He as <-; cbn; discriminate|]).
    contradiction.
Defined.
